(** * The polls application: views of [mysite/polls/views.py]

    A shallow embedding of the four entry points of the polls application
    (index, detail, results, vote) over an explicit database state, and the
    properties of the publication window and of vote casting.

    The database is two tables keyed by primary key.  A model instance is a
    pair of its primary key and its row, so [p.id] is [p.1].  Timestamps and
    the clock [timezone.now()] are integers (microseconds since 1970), and
    the clock is an argument of every view that reads it.  Submitted form
    values are text; the conversion of text to a key, which the key field
    does with [int(value)], is a parameter of the views. *)

From stdpp Require Import gmap strings list sorting.

Local Open Scope Z_scope.

(** ** Data model *)

(** A row of [polls_question]. *)
Record Question := mkQuestion {
  question_text : string;
  pub_date : Z
}.

(** A row of [polls_choice]; [question] is the foreign key. *)
Record Choice := mkChoice {
  question : Z;
  choice_text : string;
  votes : Z
}.

#[global] Instance Question_eq_dec : EqDecision Question.
Proof. solve_decision. Defined.

#[global] Instance Choice_eq_dec : EqDecision Choice.
Proof. solve_decision. Defined.

Record DB := mkDB {
  questions : gmap Z Question;
  choices : gmap Z Choice
}.

(** Modelled from the spec: the declaration of [Choice] in polls/models.py
    is not among the sources; the spec gives the vote counter as a
    non-negative integer that starts at 0.  This is the row that
    [q.choice_set.create(choice_text=...)] of the tests inserts. *)
Definition new_choice (q : Z) (text : string) : Choice :=
  mkChoice q text 0.

(** Modelled from the spec: [Question.was_published_recently] of
    polls/models.py, which is not among the sources (only its tests are):
    the publication timestamp falls within the last 24 hours and is not in
    the future. *)
Definition one_day : Z := 24 * 60 * 60 * 1000000.

Definition was_published_recently (q : Question) (now : Z) : bool :=
  bool_decide (now - one_day ≤ pub_date q) && bool_decide (pub_date q ≤ now).

(** ** Requests and responses *)

(** The submitted form: field names and their text. *)
Record HttpRequest := mkRequest {
  POST : gmap string string
}.

(** The key field's conversion of a looked-up value, [int(value)]: the key
    the text denotes, [None] where [int] raises [ValueError].  It is the
    object-relational layer's, not the views': the views are modelled, and
    their properties proved, for every such conversion. *)
Class PkField := to_python : string → option Z.

Inductive value :=
  | VQuestion (q : Z * Question)
  | VQuestions (qs : list (Z * Question))
  | VStr (s : string).

(** [reverse(viewname, args=...)]: the URL configuration is not part of the
    views, a reversed URL is kept as the view name and its arguments. *)
Record url := reverse {
  viewname : string;
  args : list Z
}.

Inductive HttpResponse :=
  | render (template_name : string) (context : list (string * value))
  | HttpResponseRedirect (location : url).

Inductive exn :=
  | Http404
  | KeyError
  | DoesNotExist
  | ValueError
  | OverflowError.

#[global] Instance exn_eq_dec : EqDecision exn.
Proof. solve_decision. Defined.

Inductive result (A : Type) :=
  | Ok (a : A)
  | Raise (e : exn).
Arguments Ok {A} a.
Arguments Raise {A} e.

(** ** Views as state transformers that may raise *)

Definition View (A : Type) : Type := DB → result A * DB.

#[global] Instance ret : MRet View := λ A a db, (Ok a, db).

Definition raise {A} (e : exn) : View A := λ db, (Raise e, db).

#[global] Instance bind : MBind View := λ A B k m db,
  match m db with
  | (Ok a, db') => k a db'
  | (Raise e, db') => (Raise e, db')
  end.

(** A database read. *)
Definition query {A} (f : DB → A) : View A := λ db, (Ok (f db), db).

(** [try: body  except handled: handler  else: orelse]: only the exceptions
    of [body] are caught. *)
Definition try_except_else {A B} (body : View A) (handled : list exn)
    (handler : View B) (orelse : A → View B) : View B :=
  λ db, match body db with
        | (Ok a, db') => orelse a db'
        | (Raise e, db') =>
            if bool_decide (e ∈ handled) then handler db' else (Raise e, db')
        end.

(** What the request handler makes of a view's outcome: [render] builds a
    200 response, [HttpResponseRedirect] is a 302, [Http404] becomes a 404
    and any other escaping exception a 500. *)
Definition status_code (r : result HttpResponse) : Z :=
  match r with
  | Ok (render _ _) => 200
  | Ok (HttpResponseRedirect _) => 302
  | Raise Http404 => 404
  | Raise _ => 500
  end.

(** ** The object-relational layer, as far as the views call it *)

(** [Question.objects.filter(pub_date__lte=now)] *)
Definition filter_pub_date_lte (now : Z) (qs : gmap Z Question) : gmap Z Question :=
  filter (λ kq, pub_date kq.2 ≤ now) qs.

(** [a] comes no later than [b] in [order_by('-pub_date')]. *)
Definition pub_date_desc : relation (Z * Question) :=
  λ a b, pub_date b.2 ≤ pub_date a.2.

#[global] Instance pub_date_desc_dec a b : Decision (pub_date_desc a b).
Proof. unfold pub_date_desc. apply _. Defined.

(** [.order_by('-pub_date')]: the rows of the query set, latest first.  Rows
    with equal timestamps come in an order the database chooses; here it is
    the one of the stable sort of the table's rows. *)
Definition order_by_pub_date_desc (qs : gmap Z Question) : list (Z * Question) :=
  merge_sort pub_date_desc (map_to_list qs).

(** [question.choice_set.all()] *)
Definition choice_set (db : DB) (question_id : Z) : gmap Z Choice :=
  filter (λ kc, question kc.2 = question_id) (choices db).

(** Truth value of a query set: it has a row. *)
Definition has_choice (db : DB) (q : Z * Question) : Prop :=
  map_to_list (choice_set db q.1) ≠ [].

#[global] Instance has_choice_dec db q : Decision (has_choice db q).
Proof. unfold has_choice. apply _. Defined.

(** [get_object_or_404(Question, pk=question_id)] *)
Definition get_object_or_404 (question_id : Z) : View (Z * Question) :=
  λ db, match questions db !! question_id with
        | Some q => (Ok (question_id, q), db)
        | None => (Raise Http404, db)
        end.

(** [request.POST[key]] *)
Definition POST_getitem (request : HttpRequest) (key : string) : View string :=
  match POST request !! key with
  | Some v => mret v
  | None => raise KeyError
  end.

(** [p.choice_set.get(pk=value)]: the value is converted to a key, which
    raises [ValueError] for text that denotes none; then the choice of that
    key is looked up among the choices of [p]. *)
Definition choice_set_get {K : PkField} (p : Z * Question) (value : string)
    : View (Z * Choice) :=
  match to_python value with
  | None => raise ValueError
  | Some k =>
      λ db, match choice_set db p.1 !! k with
            | Some c => (Ok (k, c), db)
            | None => (Raise DoesNotExist, db)
            end
  end.

(** [selected_choice.votes += 1], on the instance in hand. *)
Definition incr_votes (c : Z * Choice) : Z * Choice :=
  (c.1, mkChoice (question c.2) (choice_text c.2) (votes c.2 + 1)).

(** [selected_choice.save()]: the row of the instance's key is overwritten
    with the instance's fields. *)
Definition save (c : Z * Choice) : View () :=
  λ db, (Ok (), mkDB (questions db) (<[c.1 := c.2]> (choices db))).

(** [SingleObjectMixin.get_object] of the generic detail view: the object of
    the view's query set with the key of the URL, [Http404] when the query
    set has none. *)
Definition SingleObjectMixin_get_object (queryset : DB → gmap Z Question) (pk : Z)
    : View (Z * Question) :=
  λ db, match queryset db !! pk with
        | Some q => (Ok (pk, q), db)
        | None => (Raise Http404, db)
        end.

(** ** The views *)

Module IndexView.

Definition template_name : string := "polls/index.html".

Definition context_object_name : string := "latest_question_list".

(** [Question.objects.filter(pub_date__lte=timezone.now()
      ).order_by('-pub_date')[:5]] *)
Definition latest_five (now : Z) (db : DB) : list (Z * Question) :=
  take 5 (order_by_pub_date_desc (filter_pub_date_lte now (questions db))).

(** Return a list of the last five published questions.
    Only return a question if it has an associated answer. *)
Definition get_queryset (now : Z) : View (list (Z * Question)) :=
  query (λ db,
    let questions := latest_five now db in
    filter (has_choice db) questions).

(** The GET handler of the generic list view: the query set, rendered under
    [context_object_name]. *)
Definition get (now : Z) : View HttpResponse :=
  object_list ← get_queryset now;
  mret (render template_name [(context_object_name, VQuestions object_list)]).

End IndexView.

Module DetailView.

Definition template_name : string := "polls/detail.html".

(** Excludes any questions that aren't published yet. *)
Definition get_queryset (now : Z) (db : DB) : gmap Z Question :=
  filter_pub_date_lte now (questions db).

Definition get_object (now pk : Z) : View (Z * Question) :=
  SingleObjectMixin_get_object (get_queryset now) pk.

(** The GET handler of the generic detail view: the object, rendered under
    the model's name. *)
Definition get (now pk : Z) : View HttpResponse :=
  object ← get_object now pk;
  mret (render template_name [("question", VQuestion object)]).

End DetailView.

Module ResultsView.

Definition template_name : string := "polls/results.html".

(** Exclude results of unpublished questions. *)
Definition get_queryset (now : Z) (db : DB) : gmap Z Question :=
  filter_pub_date_lte now (questions db).

Definition get_object (now pk : Z) : View (Z * Question) :=
  SingleObjectMixin_get_object (get_queryset now) pk.

Definition get (now pk : Z) : View HttpResponse :=
  object ← get_object now pk;
  mret (render template_name [("question", VQuestion object)]).

End ResultsView.

Definition error_message : string := "You didn't select a choice.".

Definition vote {K : PkField} (request : HttpRequest) (question_id : Z)
    : View HttpResponse :=
  p ← get_object_or_404 question_id;
  try_except_else
    (value ← POST_getitem request "choice"; choice_set_get p value)
    [KeyError; DoesNotExist]
    (* Redisplay the question voting form *)
    (mret (render "polls/detail.html"
             [("question", VQuestion p); ("error_message", VStr error_message)]))
    (λ selected_choice,
       _ ← save (incr_votes selected_choice);
       mret (HttpResponseRedirect (reverse "polls:results" [p.1]))).

(** The two responses of [vote], and the database after a vote for the
    choice [c] of key [k]. *)
Definition redisplay (p : Z * Question) : HttpResponse :=
  render "polls/detail.html"
    [("question", VQuestion p); ("error_message", VStr error_message)].

Definition to_results (question_id : Z) : HttpResponse :=
  HttpResponseRedirect (reverse "polls:results" [question_id]).

Definition voted (k : Z) (c : Choice) (db : DB) : DB :=
  mkDB (questions db)
       (<[k := mkChoice (question c) (choice_text c) (votes c + 1)]> (choices db)).

(** ** The four entry points *)

Inductive Request :=
  | GetIndex
  | GetDetail (pk : Z)
  | GetResults (pk : Z)
  | PostVote (request : HttpRequest) (question_id : Z).

Definition dispatch {K : PkField} (now : Z) (r : Request) : View HttpResponse :=
  match r with
  | GetIndex => IndexView.get now
  | GetDetail pk => DetailView.get now pk
  | GetResults pk => ResultsView.get now pk
  | PostVote request question_id => vote request question_id
  end.

(** Requests handled one after the other, each at its own clock reading. *)
Fixpoint serve {K : PkField} (rs : list (Z * Request)) (db : DB) : DB :=
  match rs with
  | [] => db
  | (now, r) :: rs' => serve rs' (dispatch now r db).2
  end.

(** ** One vote request, one database access at a time

    [vote] reaches the database three times: it fetches the question (line
    46), fetches the choice (line 48) and writes the choice back (line 57);
    the increment of line 56 is on the instance the view holds.  Requests
    served at the same time take these steps in any order. *)

Inductive vote_state :=
  | Received (request : HttpRequest) (question_id : Z)
  | Resolved (request : HttpRequest) (p : Z * Question)
  | Selected (p : Z * Question) (selected_choice : Z * Choice)
  | Responded (r : result HttpResponse).

Definition vote_step {K : PkField} (s : vote_state) (db : DB) : vote_state * DB :=
  match s with
  | Received request question_id =>
      match get_object_or_404 question_id db with
      | (Ok p, db') => (Resolved request p, db')
      | (Raise e, db') => (Responded (Raise e), db')
      end
  | Resolved request p =>
      match (value ← POST_getitem request "choice"; choice_set_get p value) db with
      | (Ok selected_choice, db') => (Selected p selected_choice, db')
      | (Raise e, db') =>
          if bool_decide (e ∈ [KeyError; DoesNotExist])
          then (Responded (Ok (render "polls/detail.html"
                  [("question", VQuestion p);
                   ("error_message", VStr error_message)])), db')
          else (Responded (Raise e), db')
      end
  | Selected p selected_choice =>
      match save (incr_votes selected_choice) db with
      | (_, db') =>
          (Responded (Ok (HttpResponseRedirect (reverse "polls:results" [p.1]))),
           db')
      end
  | Responded r => (Responded r, db)
  end.

(** The request at position [i] of the pool takes its next step. *)
Definition step_at {K : PkField} (i : nat) (pool : list vote_state) (db : DB)
    : list vote_state * DB :=
  match pool !! i with
  | Some s => match vote_step s db with
              | (s', db') => (<[i := s']> pool, db')
              end
  | None => (pool, db)
  end.

Fixpoint run {K : PkField} (schedule : list nat) (pool : list vote_state)
    (db : DB) : list vote_state * DB :=
  match schedule with
  | [] => (pool, db)
  | i :: schedule' =>
      match step_at i pool db with
      | (pool', db') => run schedule' pool' db'
      end
  end.

Fixpoint vote_steps {K : PkField} (n : nat) (s : vote_state) (db : DB)
    : vote_state * DB :=
  match n with
  | O => (s, db)
  | S n' => match vote_step s db with
            | (s', db') => vote_steps n' s' db'
            end
  end.

(** The schedule that serves [n] requests, from position [first] on, one
    after the other: the three steps of one, then those of the next. *)
Definition one_by_one (first n : nat) : list nat :=
  flat_map (λ i, replicate 3 i) (seq first n).

Definition received (rq : HttpRequest * Z) : vote_state := Received rq.1 rq.2.

Definition redirected (rq : HttpRequest * Z) : vote_state :=
  Responded (Ok (to_results rq.2)).

(** The submitted form names the key [k] as its choice. *)
Definition chooses {K : PkField} (request : HttpRequest) (k : Z) : Prop :=
  ∃ value, POST request !! "choice" = Some value ∧ to_python value = Some k.

(** [request] on [question_id] is a vote for the choice [k] of that
    question. *)
Definition valid_vote {K : PkField} (db : DB) (k : Z) (rq : HttpRequest * Z)
    : Prop :=
  is_Some (questions db !! rq.2) ∧
  chooses rq.1 k ∧
  ∃ c, choices db !! k = Some c ∧ question c = rq.2.

Definition is_selected (s : vote_state) : bool :=
  match s with
  | Selected _ _ => true
  | _ => false
  end.

(** The number of requests that hold a choice they have fetched and not
    yet saved. *)
Fixpoint holding (pool : list vote_state) : nat :=
  match pool with
  | [] => 0
  | s :: pool' => (if is_selected s then 1 else 0) + holding pool'
  end.

(** Along the schedule no two requests hold a choice at the same time: no
    request fetches or saves the choice between the fetch and the save of
    another. *)
Fixpoint exclusive {K : PkField} (schedule : list nat) (pool : list vote_state)
    (db : DB) : bool :=
  match schedule with
  | [] => true
  | i :: schedule' =>
      match step_at i pool db with
      | (pool', db') =>
          bool_decide (holding pool' ≤ 1)%nat && exclusive schedule' pool' db'
      end
  end.

Definition votes_of (db : DB) (k : Z) : option Z :=
  votes <$> choices db !! k.

(** ** The listing as the specification words it

    The five latest among the published questions that have a choice: the
    limit comes after both conditions. *)
Definition published_with_choice (now : Z) (db : DB) : gmap Z Question :=
  filter (λ kq, pub_date kq.2 ≤ now ∧ has_choice db kq) (questions db).

Definition listing_as_specified (now : Z) (db : DB) : list (Z * Question) :=
  take 5 (order_by_pub_date_desc (published_with_choice now db)).

(** ** Sample databases *)

(** Six published questions; all but the latest have a choice. *)
Definition six_questions : DB :=
  mkDB
    (list_to_map
       [(1, mkQuestion "Q1" 10); (2, mkQuestion "Q2" 20);
        (3, mkQuestion "Q3" 30); (4, mkQuestion "Q4" 40);
        (5, mkQuestion "Q5" 50); (6, mkQuestion "Q6" 60)])
    (list_to_map
       [(11, new_choice 1 "Sure."); (12, new_choice 2 "Sure.");
        (13, new_choice 3 "Sure."); (14, new_choice 4 "Sure.");
        (15, new_choice 5 "Sure.")]).

(** A question published at 50 with one choice. *)
Definition one_question : DB :=
  mkDB {[ 1 := mkQuestion "What's my choice?" 50 ]}
       {[ 7 := new_choice 1 "Me." ]}.

(** The form with the radio button of value [value] selected. *)
Definition vote_for (value : string) : HttpRequest :=
  mkRequest {[ "choice" := value ]}.

(** The conversion used with the sample requests: [int] on text made of
    decimal digits with an optional sign.  Other text is refused here; the
    samples submit none that [int] would accept. *)
Fixpoint digits (s : string) (acc : Z) : option Z :=
  match s with
  | EmptyString => Some acc
  | String a s' =>
      let n := Z.of_N (Ascii.N_of_ascii a) in
      if bool_decide (48 ≤ n ≤ 57) then digits s' (10 * acc + (n - 48)) else None
  end.

(** A non-empty run of decimal digits. *)
Definition number (s : string) : option Z :=
  match s with
  | EmptyString => None
  | _ => digits s 0
  end.

Definition int (value : string) : option Z :=
  match value with
  | EmptyString => None
  | String a s' =>
      let n := Z.of_N (Ascii.N_of_ascii a) in
      if bool_decide (n = 45) then Z.opp <$> number s'
      else if bool_decide (n = 43) then number s'
      else number value
  end.

#[global] Instance decimal_key : PkField := int.

(** ** The fixtures of [polls/tests.py] *)

(** The key the database gives a new row: one past the largest key of the
    table, the first key being 1. *)
Definition next_pk {A} (table : gmap Z A) : Z :=
  1 + foldr Z.max 0 (map_to_list table).*1.

(** [datetime.min] and [datetime.max]: the first microsecond of year 1 and
    the last of year 9999. *)
Definition datetime_min : Z := -62135596800 * 1000000.

Definition datetime_max : Z := 253402300800 * 1000000 - 1.

(** [datetime.timedelta(days=days)]: [OverflowError] for more than
    999999999 days either way. *)
Definition timedelta_days (days : Z) : View Z :=
  if bool_decide (-999999999 ≤ days ≤ 999999999)
  then mret (days * one_day)
  else raise OverflowError.

(** [t + delta] on datetimes: [OverflowError] when the sum is no datetime. *)
Definition datetime_add (t delta : Z) : View Z :=
  if bool_decide (datetime_min ≤ t + delta ≤ datetime_max)
  then mret (t + delta)
  else raise OverflowError.

(** [Question.objects.create(question_text=..., pub_date=...)] *)
Definition objects_create (q : Question) : View (Z * Question) :=
  λ db, let pk := next_pk (questions db) in
        (Ok (pk, q), mkDB (<[pk := q]> (questions db)) (choices db)).

(** Creates a question with the given [question_text] published the given
    number of days offset to now.  Negative offset: published in the past.
    Positive offset: yet to be published. *)
Definition create_question (now : Z) (question_text : string) (days : Z)
    : View (Z * Question) :=
  delta ← timedelta_days days;
  time ← datetime_add now delta;
  objects_create (mkQuestion question_text time).

(** The offset of [days] is a [timedelta] and leads from [now] to a
    datetime. *)
Definition offset_in_range (now days : Z) : Prop :=
  -999999999 ≤ days ≤ 999999999 ∧
  datetime_min ≤ now + days * one_day ≤ datetime_max.

(** [q.choice_set.create(choice_text=...)] *)
Definition choice_set_create (q : Z * Question) (text : string)
    : View (Z * Choice) :=
  λ db, let k := next_pk (choices db) in
        (Ok (k, new_choice q.1 text),
         mkDB (questions db) (<[k := new_choice q.1 text]> (choices db))).

(** ** Votes for one choice, in flight *)

Definition is_answered (s : vote_state) : bool :=
  match s with
  | Responded _ => true
  | _ => false
  end.

(** The requests of the pool that have been answered. *)
Fixpoint answered (pool : list vote_state) : nat :=
  match pool with
  | [] => 0
  | s :: pool' => (if is_answered s then 1 else 0) + answered pool'
  end.

(** A request that is a vote for the choice [k] of the question [q0],
    wherever it stands in [vote]; the counter it holds, once it has fetched
    the choice, lies between [lo] and [hi], and its answer is the
    redirect. *)
Definition voting_for {K : PkField} (qs : gmap Z Question) (k q0 lo hi : Z)
    (s : vote_state) : Prop :=
  match s with
  | Received request question_id =>
      question_id = q0 ∧ is_Some (qs !! q0) ∧ chooses request k
  | Resolved request p =>
      p.1 = q0 ∧ chooses request k
  | Selected p selected_choice =>
      selected_choice.1 = k ∧ question selected_choice.2 = q0 ∧
      lo ≤ votes selected_choice.2 ≤ hi
  | Responded r => ∃ question_id, r = Ok (to_results question_id)
  end.

(** What holds of a pool of such votes and the database between any two
    steps, [v] being the counter before the first step: the counter is at
    least [v], at most [v] plus the number of answered votes, and above [v]
    once a vote is answered. *)
Definition votes_in_flight {K : PkField} (k q0 v : Z) (pool : list vote_state)
    (db : DB) : Prop :=
  (∃ c, choices db !! k = Some c ∧ question c = q0 ∧
        v ≤ votes c ≤ v + Z.of_nat (answered pool) ∧
        ((0 < answered pool)%nat → v + 1 ≤ votes c)) ∧
  Forall (voting_for (questions db) k q0 v (v + Z.of_nat (answered pool))) pool.

(** What holds of such a pool and the database between any two steps of a
    schedule on which the votes hold the choice in turn: the counter is [v]
    plus the number of answered votes, and a request that holds the choice
    holds it with this counter. *)
Definition votes_in_turn {K : PkField} (k q0 v : Z) (pool : list vote_state)
    (db : DB) : Prop :=
  (∃ c, choices db !! k = Some c ∧ question c = q0 ∧
        votes c = v + Z.of_nat (answered pool)) ∧
  Forall (voting_for (questions db) k q0
            (v + Z.of_nat (answered pool)) (v + Z.of_nat (answered pool))) pool ∧
  (holding pool ≤ 1)%nat.




(** * Properties *)

#[global] Instance pub_date_desc_total : Total pub_date_desc.
Proof. intros a b. unfold pub_date_desc. lia. Qed.

#[global] Instance pub_date_desc_trans : Transitive pub_date_desc.
Proof. intros a b c. unfold pub_date_desc. lia. Qed.

(** ** The tables under the filters of the views *)

Lemma lookup_filter_pub_date_lte now (qs : gmap Z Question) pk q :
  filter_pub_date_lte now qs !! pk = Some q ↔ qs !! pk = Some q ∧ pub_date q ≤ now.
Proof. unfold filter_pub_date_lte. by rewrite map_lookup_filter_Some. Qed.

Lemma lookup_filter_pub_date_lte_None now (qs : gmap Z Question) pk :
  filter_pub_date_lte now qs !! pk = None ↔
  ∀ q, qs !! pk = Some q → now < pub_date q.
Proof.
  unfold filter_pub_date_lte. rewrite map_lookup_filter_None. split.
  - intros [Hnone | Hall] q Hq; [congruence |]. specialize (Hall q Hq). simpl in Hall. lia.
  - intros Hall. right. intros q Hq. specialize (Hall q Hq). simpl. lia.
Qed.

Lemma lookup_choice_set db question_id k c :
  choice_set db question_id !! k = Some c ↔
  choices db !! k = Some c ∧ question c = question_id.
Proof. unfold choice_set. by rewrite map_lookup_filter_Some. Qed.

Lemma lookup_choice_set_None db question_id k :
  choice_set db question_id !! k = None ↔
  ∀ c, choices db !! k = Some c → question c ≠ question_id.
Proof.
  unfold choice_set. rewrite map_lookup_filter_None. split.
  - intros [Hnone | Hall] c Hc; [congruence | exact (Hall c Hc)].
  - intros Hall. right. exact Hall.
Qed.

(** ** Published recently *)

(** The three cases of [QuestionMethodTest], at any clock reading. *)
Lemma QuestionMethodTest now text :
  was_published_recently (mkQuestion text (now + 30 * one_day)) now = false ∧
  was_published_recently (mkQuestion text (now - 30 * one_day)) now = false ∧
  was_published_recently (mkQuestion text (now - 60 * 60 * 1000000)) now = true.
Proof.
  unfold was_published_recently, one_day. simpl.
  repeat split.
  - rewrite andb_false_iff. right. apply bool_decide_eq_false. lia.
  - rewrite andb_false_iff. left. apply bool_decide_eq_false. lia.
  - rewrite andb_true_iff. split; apply bool_decide_eq_true; lia.
Qed.

(** C6: a question is published recently exactly when its publication
    timestamp lies in the last 24 hours and not in the future; so never for
    a timestamp after the clock, never for one more than 24 hours before
    it, always for one in between. *)
Theorem was_published_recently_iff (q : Question) (now : Z) :
  (was_published_recently q now = true ↔ now - one_day ≤ pub_date q ≤ now) ∧
  (now < pub_date q → was_published_recently q now = false) ∧
  (pub_date q < now - one_day → was_published_recently q now = false) ∧
  (now - one_day ≤ pub_date q ≤ now → was_published_recently q now = true).
Proof.
  assert (Hiff : was_published_recently q now = true ↔
                 now - one_day ≤ pub_date q ≤ now).
  { unfold was_published_recently.
    rewrite andb_true_iff, !bool_decide_eq_true. reflexivity. }
  split; [exact Hiff |].
  repeat split.
  - intros Hfuture. apply not_true_is_false. rewrite Hiff. lia.
  - intros Hold. apply not_true_is_false. rewrite Hiff. lia.
  - apply Hiff.
Qed.

Lemma was_published_recently_iff_witness :
  was_published_recently (mkQuestion "Past question." 1000) (1000 + one_day) = true ∧
  was_published_recently (mkQuestion "Future question." 1001) 1000 = false ∧
  was_published_recently (mkQuestion "Old question." 999) (1000 + one_day) = false.
Proof.
  split; [| split].
  - apply (proj2 (proj2 (proj2
      (was_published_recently_iff (mkQuestion "Past question." 1000) (1000 + one_day))))).
    unfold one_day. cbn [pub_date]. lia.
  - apply (proj1 (proj2
      (was_published_recently_iff (mkQuestion "Future question." 1001) 1000))).
    cbn [pub_date]. lia.
  - apply (proj1 (proj2 (proj2
      (was_published_recently_iff (mkQuestion "Old question." 999) (1000 + one_day))))).
    unfold one_day. cbn [pub_date]. lia.
Defined.

(** ** The five outcomes of [vote] *)

Ltac unfold_vote :=
  unfold vote, try_except_else, POST_getitem, choice_set_get, get_object_or_404,
    save, incr_votes, raise, mbind, bind, mret, ret; simpl.

Lemma vote_absent {K : PkField} request question_id db :
  questions db !! question_id = None →
  vote request question_id db = (Raise Http404, db).
Proof. intros Hq. unfold_vote. by rewrite Hq. Qed.

Lemma vote_no_selection {K : PkField} request question_id q db :
  questions db !! question_id = Some q →
  POST request !! "choice" = None →
  vote request question_id db = (Ok (redisplay (question_id, q)), db).
Proof. intros Hq Hpost. unfold_vote. rewrite Hq; simpl. by rewrite Hpost. Qed.

Lemma vote_not_a_key {K : PkField} request question_id q value db :
  questions db !! question_id = Some q →
  POST request !! "choice" = Some value →
  to_python value = None →
  vote request question_id db = (Raise ValueError, db).
Proof.
  intros Hq Hpost Hvalue. unfold_vote.
  rewrite Hq; simpl. rewrite Hpost; simpl. by rewrite Hvalue.
Qed.

Lemma vote_wrong_selection {K : PkField} request question_id q k db :
  questions db !! question_id = Some q →
  chooses request k →
  choice_set db question_id !! k = None →
  vote request question_id db = (Ok (redisplay (question_id, q)), db).
Proof.
  intros Hq (value & Hpost & Hvalue) Hk. unfold_vote.
  rewrite Hq; simpl. rewrite Hpost; simpl. rewrite Hvalue. by rewrite Hk.
Qed.

Lemma vote_selected {K : PkField} request question_id q k c db :
  questions db !! question_id = Some q →
  chooses request k →
  choice_set db question_id !! k = Some c →
  vote request question_id db = (Ok (to_results question_id), voted k c db).
Proof.
  intros Hq (value & Hpost & Hvalue) Hk. unfold_vote.
  rewrite Hq; simpl. rewrite Hpost; simpl. rewrite Hvalue. by rewrite Hk.
Qed.

Lemma chooses_inj {K : PkField} request k k' :
  chooses request k → chooses request k' → k = k'.
Proof. intros (value & Hpost & Hk) (value' & Hpost' & Hk'). congruence. Qed.

(** Every run of [vote] is one of the five. *)
Lemma vote_cases {K : PkField} request question_id db :
  (questions db !! question_id = None ∧
   vote request question_id db = (Raise Http404, db)) ∨
  (∃ q, questions db !! question_id = Some q ∧
        (POST request !! "choice" = None ∨
         ∃ k, chooses request k ∧ choice_set db question_id !! k = None) ∧
        vote request question_id db = (Ok (redisplay (question_id, q)), db)) ∨
  (∃ q value, questions db !! question_id = Some q ∧
              POST request !! "choice" = Some value ∧
              to_python value = None ∧
              vote request question_id db = (Raise ValueError, db)) ∨
  (∃ q k c, questions db !! question_id = Some q ∧
            chooses request k ∧
            choice_set db question_id !! k = Some c ∧
            vote request question_id db = (Ok (to_results question_id), voted k c db)).
Proof.
  destruct (questions db !! question_id) as [q|] eqn:Hq.
  - right.
    destruct (POST request !! "choice") as [value|] eqn:Hpost.
    + destruct (to_python value) as [k|] eqn:Hvalue.
      * assert (Hchooses : chooses request k) by (by exists value).
        destruct (choice_set db question_id !! k) as [c|] eqn:Hk.
        -- right. right. exists q, k, c. eauto using vote_selected.
        -- left. exists q. split; [done|]. split; [eauto|].
           eauto using vote_wrong_selection.
      * right. left. exists q, value. eauto using vote_not_a_key.
    + left. exists q. split; [done|]. split; [eauto|].
      eauto using vote_no_selection.
  - left. eauto using vote_absent.
Qed.

(** ** Detail and results lookups *)

Lemma get_object_published now pk q db :
  questions db !! pk = Some q → pub_date q ≤ now →
  SingleObjectMixin_get_object (λ db, filter_pub_date_lte now (questions db)) pk db
  = (Ok (pk, q), db).
Proof.
  intros Hq Hpub. unfold SingleObjectMixin_get_object.
  by rewrite (proj2 (lookup_filter_pub_date_lte now (questions db) pk q)).
Qed.

Lemma get_object_not_found now pk db :
  (∀ q, questions db !! pk = Some q → now < pub_date q) →
  SingleObjectMixin_get_object (λ db, filter_pub_date_lte now (questions db)) pk db
  = (Raise Http404, db).
Proof.
  intros Hq. unfold SingleObjectMixin_get_object.
  by rewrite (proj2 (lookup_filter_pub_date_lte_None now (questions db) pk)).
Qed.

Lemma get_object_inv now pk p db db' :
  SingleObjectMixin_get_object (λ db, filter_pub_date_lte now (questions db)) pk db
  = (Ok p, db') →
  p.1 = pk ∧ questions db !! pk = Some p.2 ∧ pub_date p.2 ≤ now ∧ db' = db.
Proof.
  unfold SingleObjectMixin_get_object.
  destruct (filter_pub_date_lte now (questions db) !! pk) as [q|] eqn:Hq;
    intros Heq; simplify_eq.
  apply lookup_filter_pub_date_lte in Hq as [Hq Hpub]. done.
Qed.

(** C2: the detail lookup and the results lookup return the question of a
    key only if it is published at the clock reading; a key of an unpublished
    question and a key of no question both end in [Http404], a 404 response,
    and in the same outcome, so the two cannot be told apart. *)
Theorem lookup_published_or_not_found (now pk : Z) (db : DB) :
  (∀ q, questions db !! pk = Some q → pub_date q ≤ now →
     DetailView.get_object now pk db = (Ok (pk, q), db) ∧
     ResultsView.get_object now pk db = (Ok (pk, q), db)) ∧
  (∀ p db', DetailView.get_object now pk db = (Ok p, db') ∨
            ResultsView.get_object now pk db = (Ok p, db') →
     p.1 = pk ∧ questions db !! pk = Some p.2 ∧ pub_date p.2 ≤ now) ∧
  ((∀ q, questions db !! pk = Some q → now < pub_date q) →
     DetailView.get_object now pk db = (Raise Http404, db) ∧
     ResultsView.get_object now pk db = (Raise Http404, db) ∧
     status_code (DetailView.get now pk db).1 = 404 ∧
     status_code (ResultsView.get now pk db).1 = 404) ∧
  (∀ q pk', questions db !! pk = Some q → now < pub_date q →
            questions db !! pk' = None →
     DetailView.get now pk db = DetailView.get now pk' db ∧
     ResultsView.get now pk db = ResultsView.get now pk' db).
Proof.
  split; [| split; [| split]].
  - intros q Hq Hpub. split; by apply get_object_published.
  - intros p db' [H | H]; apply get_object_inv in H;
      destruct H as (Hpk & Hq & Hpub & _); auto.
  - intros Hq.
    unfold DetailView.get, ResultsView.get, mbind, bind,
      DetailView.get_object, ResultsView.get_object,
      DetailView.get_queryset, ResultsView.get_queryset.
    by rewrite (get_object_not_found now pk db Hq).
  - intros q pk' Hq Hfuture Hnone.
    unfold DetailView.get, ResultsView.get, mbind, bind,
      DetailView.get_object, ResultsView.get_object,
      DetailView.get_queryset, ResultsView.get_queryset.
    rewrite (get_object_not_found now pk db), (get_object_not_found now pk' db);
      [done | intros ?; congruence | intros ? ?; simplify_eq; done].
Qed.

Lemma lookup_published_or_not_found_witness :
  DetailView.get_object 100 1 one_question
    = (Ok (1, mkQuestion "What's my choice?" 50), one_question) ∧
  ResultsView.get_object 100 1 one_question
    = (Ok (1, mkQuestion "What's my choice?" 50), one_question) ∧
  DetailView.get 10 1 one_question = DetailView.get 10 2 one_question.
Proof.
  pose proof (lookup_published_or_not_found 100 1 one_question) as (Hfound & _).
  pose proof (lookup_published_or_not_found 10 1 one_question) as (_ & _ & _ & Hsame).
  split; [| split].
  - apply (Hfound (mkQuestion "What's my choice?" 50)); [reflexivity | simpl; lia].
  - apply (Hfound (mkQuestion "What's my choice?" 50)); [reflexivity | simpl; lia].
  - apply (Hsame (mkQuestion "What's my choice?" 50) 2);
      [reflexivity | simpl; lia | reflexivity].
Defined.

(** ** Vote casting *)

(** C3, as amended: a vote whose choice value is missing from the
    submission, or is the text of a key of no choice of the resolved
    question, is answered by the detail page with the error message, a 200
    response; such a vote, and also one whose choice value is not the text
    of a key, leaves the database as it was, so every vote counter keeps
    its value. *)
Theorem vote_invalid_selection {K : PkField} (request : HttpRequest)
    (question_id : Z) (q : Question) (db : DB) :
  questions db !! question_id = Some q →
  ((POST request !! "choice" = None ∨
    ∃ k, chooses request k ∧
         ∀ c, choices db !! k = Some c → question c ≠ question_id) →
   vote request question_id db
     = (Ok (render "polls/detail.html"
              [("question", VQuestion (question_id, q));
               ("error_message", VStr "You didn't select a choice.")]), db) ∧
   status_code (vote request question_id db).1 = 200) ∧
  ((POST request !! "choice" = None ∨
    (∃ value, POST request !! "choice" = Some value ∧ to_python value = None) ∨
    ∃ k, chooses request k ∧
         ∀ c, choices db !! k = Some c → question c ≠ question_id) →
   (vote request question_id db).2 = db ∧
   ∀ k, votes_of (vote request question_id db).2 k = votes_of db k).
Proof.
  intros Hq.
  assert (Hredisplay :
    POST request !! "choice" = None ∨
    (∃ k, chooses request k ∧
          ∀ c, choices db !! k = Some c → question c ≠ question_id) →
    vote request question_id db = (Ok (redisplay (question_id, q)), db)).
  { intros [Hmissing | (k & Hchooses & Hk)].
    - by apply vote_no_selection.
    - apply (vote_wrong_selection _ _ _ k); [done | done |].
      by apply lookup_choice_set_None. }
  split.
  - intros Hsel. by rewrite (Hredisplay Hsel).
  - intros [Hmissing | [(value & Hpost & Hvalue) | Hwrong]].
    + by rewrite Hredisplay by auto.
    + by rewrite (vote_not_a_key request question_id q value db).
    + by rewrite Hredisplay by auto.
Qed.

Lemma vote_invalid_selection_witness :
  vote (mkRequest ∅) 1 one_question
    = (Ok (redisplay (1, mkQuestion "What's my choice?" 50)), one_question) ∧
  vote (vote_for "8") 1 one_question
    = (Ok (redisplay (1, mkQuestion "What's my choice?" 50)), one_question) ∧
  votes_of (vote (vote_for "abc") 1 one_question).2 7 = Some 0.
Proof.
  destruct (vote_invalid_selection (mkRequest ∅) 1 (mkQuestion "What's my choice?" 50)
              one_question) as [Hmissing _]; [reflexivity |].
  destruct (vote_invalid_selection (vote_for "8") 1 (mkQuestion "What's my choice?" 50)
              one_question) as [Hwrong _]; [reflexivity |].
  destruct (vote_invalid_selection (vote_for "abc") 1 (mkQuestion "What's my choice?" 50)
              one_question) as [_ Hkept]; [reflexivity |].
  split; [| split].
  - apply Hmissing. left. reflexivity.
  - apply Hwrong. right. exists 8. split; [by exists "8" |].
    intros c Hc. vm_compute in Hc. discriminate.
  - destruct Hkept as [_ Hvotes].
    + right. left. by exists "abc".
    + rewrite Hvotes. reflexivity.
Defined.

(** C3, as stated, fails for a choice value that is not the text of a key:
    the conversion of ["abc"] raises [ValueError], which [vote] catches
    neither as [KeyError] nor as [DoesNotExist]; the answer is a server
    error, not the detail page. *)
Lemma vote_not_a_key_server_error :
  questions one_question !! 1 = Some (mkQuestion "What's my choice?" 50) ∧
  POST (vote_for "abc") !! "choice" = Some "abc" ∧
  int "abc" = None ∧
  vote (vote_for "abc") 1 one_question = (Raise ValueError, one_question) ∧
  status_code (vote (vote_for "abc") 1 one_question).1 = 500 ∧
  (vote (vote_for "abc") 1 one_question).1
  ≠ Ok (render "polls/detail.html"
          [("question", VQuestion (1, mkQuestion "What's my choice?" 50));
           ("error_message", VStr "You didn't select a choice.")]).
Proof. repeat split; try reflexivity; by vm_compute. Qed.

(** C4: a vote whose choice key is that of a choice of the question adds
    exactly 1 to that choice's counter, leaves every other choice row and
    every question row as it was, and is answered by a redirect to the
    results of the question. *)
Theorem vote_valid_selection {K : PkField} (request : HttpRequest)
    (question_id : Z) (q : Question) (k : Z) (c : Choice) (db : DB) :
  questions db !! question_id = Some q →
  chooses request k →
  choices db !! k = Some c →
  question c = question_id →
  ∃ db',
    vote request question_id db
      = (Ok (HttpResponseRedirect (reverse "polls:results" [question_id])), db') ∧
    choices db' !! k = Some (mkChoice (question c) (choice_text c) (votes c + 1)) ∧
    votes_of db' k = Some (votes c + 1) ∧
    (∀ k', k' ≠ k → choices db' !! k' = choices db !! k') ∧
    questions db' = questions db.
Proof.
  intros Hq Hpost Hc Hbelongs.
  exists (voted k c db). split; [| split; [| split; [| split]]].
  - apply (vote_selected _ _ q); [done | done |].
    by apply lookup_choice_set.
  - simpl. apply lookup_insert_eq.
  - unfold votes_of. simpl. by rewrite lookup_insert_eq.
  - intros k' Hne. simpl. by apply lookup_insert_ne.
  - done.
Qed.

Lemma vote_valid_selection_witness :
  ∃ db',
    vote (vote_for "7") 1 one_question
      = (Ok (HttpResponseRedirect (reverse "polls:results" [1])), db') ∧
    votes_of db' 7 = Some 1.
Proof.
  destruct (vote_valid_selection (vote_for "7") 1 (mkQuestion "What's my choice?" 50) 7
              (new_choice 1 "Me.") one_question)
    as (db' & Hvote & _ & Hvotes & _);
    [reflexivity | by exists "7" | reflexivity | reflexivity |].
  exists db'. split; [exact Hvote | exact Hvotes].
Defined.

(** C5: [vote] ends in [Http404] exactly when the question key is in no row
    of the question table; the clock is not consulted, so a vote for a
    choice of a question whose publication lies in the future is counted
    and redirected like any other. *)
Theorem vote_not_found_iff_absent {K : PkField} (request : HttpRequest)
    (question_id : Z) (db : DB) :
  ((vote request question_id db).1 = Raise Http404 ↔
   questions db !! question_id = None) ∧
  (questions db !! question_id = None →
   vote request question_id db = (Raise Http404, db)) ∧
  (∀ now q k c,
     questions db !! question_id = Some q → now < pub_date q →
     chooses request k →
     choices db !! k = Some c → question c = question_id →
     (DetailView.get_object now question_id db).1 = Raise Http404 ∧
     (vote request question_id db).1 = Ok (to_results question_id) ∧
     votes_of (vote request question_id db).2 k = Some (votes c + 1)).
Proof.
  split; [| split].
  - split.
    + intros H404.
      destruct (vote_cases request question_id db)
        as [[Hq _] | [(q & _ & _ & Hv) | [(q & value & _ & _ & _ & Hv)
                                         | (q & k & c & _ & _ & _ & Hv)]]];
        [done | rewrite Hv in H404; discriminate ..].
    + intros Hq. by rewrite vote_absent.
  - apply vote_absent.
  - intros now q k c Hq Hfuture Hpost Hc Hbelongs. split; [| split].
    + unfold DetailView.get_object, DetailView.get_queryset.
      rewrite get_object_not_found; [done |].
      intros q' Hq'. by simplify_eq.
    + rewrite (vote_selected _ _ q k c); [done ..|]. by apply lookup_choice_set.
    + rewrite (vote_selected _ _ q k c); [| done ..|by apply lookup_choice_set].
      unfold votes_of. simpl. by rewrite lookup_insert_eq.
Qed.

Lemma vote_not_found_iff_absent_witness :
  vote (vote_for "7") 2 one_question = (Raise Http404, one_question) ∧
  (DetailView.get_object 10 1 one_question).1 = Raise Http404 ∧
  (vote (vote_for "7") 1 one_question).1 = Ok (to_results 1) ∧
  votes_of (vote (vote_for "7") 1 one_question).2 7 = Some 1.
Proof.
  destruct (vote_not_found_iff_absent (vote_for "7") 2 one_question) as (_ & Habsent & _).
  destruct (vote_not_found_iff_absent (vote_for "7") 1 one_question) as (_ & _ & Hfuture).
  split.
  - apply Habsent. reflexivity.
  - apply (Hfuture 10 (mkQuestion "What's my choice?" 50) 7 (new_choice 1 "Me."));
      [reflexivity | simpl; lia | by exists "7" | reflexivity | reflexivity].
Defined.

(** C9, as amended: for a question that exists but is not yet published, a
    vote whose choice value is missing, or is the text of a key of no
    choice of the question, is answered by a 200 response that renders the
    detail page of that question with the error message, while the detail
    view of the same key answers 404. *)
Theorem vote_redisplays_unpublished {K : PkField} (request : HttpRequest)
    (question_id : Z) (q : Question) (now : Z) (db : DB) :
  questions db !! question_id = Some q →
  now < pub_date q →
  (POST request !! "choice" = None ∨
   ∃ k, chooses request k ∧
        ∀ c, choices db !! k = Some c → question c ≠ question_id) →
  (vote request question_id db).1
    = Ok (render DetailView.template_name
            [("question", VQuestion (question_id, q));
             ("error_message", VStr "You didn't select a choice.")]) ∧
  status_code (vote request question_id db).1 = 200 ∧
  (DetailView.get now question_id db).1 = Raise Http404 ∧
  status_code (DetailView.get now question_id db).1 = 404.
Proof.
  intros Hq Hfuture Hsel.
  assert (Hvote : vote request question_id db = (Ok (redisplay (question_id, q)), db)).
  { destruct Hsel as [Hmissing | (k & Hpost & Hk)].
    - by apply vote_no_selection.
    - apply (vote_wrong_selection _ _ _ k); [done | done |].
      by apply lookup_choice_set_None. }
  assert (Hget : DetailView.get now question_id db = (Raise Http404, db)).
  { unfold DetailView.get, mbind, bind, DetailView.get_object, DetailView.get_queryset.
    rewrite get_object_not_found; [done |].
    intros q' Hq'. by simplify_eq. }
  rewrite Hvote, Hget. done.
Qed.

Lemma vote_redisplays_unpublished_witness :
  (vote (mkRequest ∅) 1 one_question).1
    = Ok (render DetailView.template_name
            [("question", VQuestion (1, mkQuestion "What's my choice?" 50));
             ("error_message", VStr "You didn't select a choice.")]) ∧
  status_code (vote (mkRequest ∅) 1 one_question).1 = 200 ∧
  (DetailView.get 10 1 one_question).1 = Raise Http404 ∧
  status_code (DetailView.get 10 1 one_question).1 = 404.
Proof.
  apply (vote_redisplays_unpublished (mkRequest ∅) 1 (mkQuestion "What's my choice?" 50)
           10 one_question); [reflexivity | simpl; lia | left; reflexivity].
Defined.

(** C9, as stated, fails for an invalid choice value that is not the text
    of a key: on the question of key 1, not yet published at 10, the vote
    ends in [ValueError], a 500 response that renders nothing of the
    question. *)
Lemma vote_not_a_key_unpublished :
  questions one_question !! 1 = Some (mkQuestion "What's my choice?" 50) ∧
  10 < pub_date (mkQuestion "What's my choice?" 50) ∧
  POST (vote_for "abc") !! "choice" = Some "abc" ∧
  int "abc" = None ∧
  (vote (vote_for "abc") 1 one_question).1 = Raise ValueError ∧
  status_code (vote (vote_for "abc") 1 one_question).1 = 500 ∧
  status_code (vote (vote_for "abc") 1 one_question).1 ≠ 200 ∧
  status_code (DetailView.get 10 1 one_question).1 = 404.
Proof. repeat split; try reflexivity; by vm_compute. Qed.

(** ** The listing *)

Section sorted_sublist.
Context {A : Type} (R : relation A).

Lemma StronglySorted_sublist (l k : list A) :
  l `sublist_of` k → StronglySorted R k → StronglySorted R l.
Proof.
  induction 1 as [| x l k Hsub IH | x l k Hsub IH]; intros Hsorted.
  - constructor.
  - apply StronglySorted_inv in Hsorted as [Hk Hx].
    constructor; [by apply IH |].
    eapply Forall_forall. intros y Hy.
    rewrite Forall_forall in Hx. apply Hx.
    by eapply elem_of_sublist.
  - apply StronglySorted_inv in Hsorted as [Hk _]. by apply IH.
Qed.

End sorted_sublist.

Lemma has_choice_iff db (p : Z * Question) :
  has_choice db p ↔ ∃ k c, choices db !! k = Some c ∧ question c = p.1.
Proof.
  unfold has_choice. rewrite map_to_list_empty_iff. split.
  - intros Hne. apply map_choose in Hne as (k & c & Hkc).
    apply lookup_choice_set in Hkc. eauto.
  - intros (k & c & Hkc) Hempty.
    apply lookup_choice_set in Hkc. rewrite Hempty in Hkc.
    by rewrite lookup_empty in Hkc.
Qed.

Lemma order_by_pub_date_desc_sorted qs :
  StronglySorted pub_date_desc (order_by_pub_date_desc qs).
Proof. apply StronglySorted_merge_sort; apply _. Qed.

Lemma elem_of_order_by_pub_date_desc qs (p : Z * Question) :
  p ∈ order_by_pub_date_desc qs ↔ qs !! p.1 = Some p.2.
Proof.
  unfold order_by_pub_date_desc. rewrite merge_sort_Permutation.
  destruct p as [pk q]. apply elem_of_map_to_list.
Qed.

Lemma latest_five_sorted now db : StronglySorted pub_date_desc (IndexView.latest_five now db).
Proof.
  eapply StronglySorted_sublist; [apply sublist_take |].
  apply order_by_pub_date_desc_sorted.
Qed.

Lemma latest_five_NoDup now db : NoDup (IndexView.latest_five now db).
Proof.
  eapply sublist_NoDup; [| apply sublist_take].
  unfold order_by_pub_date_desc. rewrite merge_sort_Permutation.
  apply NoDup_map_to_list.
Qed.

Lemma elem_of_latest_five now db (p : Z * Question) :
  p ∈ IndexView.latest_five now db → questions db !! p.1 = Some p.2 ∧ pub_date p.2 ≤ now.
Proof.
  intros Hp. apply lookup_filter_pub_date_lte, elem_of_order_by_pub_date_desc.
  eapply elem_of_sublist; [exact Hp | apply sublist_take].
Qed.

Lemma latest_five_length now db :
  length (IndexView.latest_five now db)
  = (5 `min` size (filter_pub_date_lte now (questions db)))%nat.
Proof.
  unfold IndexView.latest_five. rewrite length_take. f_equal.
  unfold order_by_pub_date_desc. rewrite merge_sort_Permutation.
  apply length_map_to_list.
Qed.

(** A published question that is not among the five is no later than any of
    them. *)
Lemma latest_five_latest now db pk q (p : Z * Question) :
  questions db !! pk = Some q → pub_date q ≤ now →
  (pk, q) ∉ IndexView.latest_five now db → p ∈ IndexView.latest_five now db →
  pub_date q ≤ pub_date p.2.
Proof.
  intros Hq Hpub Hout Hin.
  pose proof (order_by_pub_date_desc_sorted (filter_pub_date_lte now (questions db)))
    as Hsorted.
  assert (Hall : (pk, q) ∈ order_by_pub_date_desc (filter_pub_date_lte now (questions db))).
  { apply elem_of_order_by_pub_date_desc. simpl. by apply lookup_filter_pub_date_lte. }
  rewrite <- (take_drop 5) in Hsorted, Hall.
  apply elem_of_app in Hall as [Hhead | Htail]; [done |].
  exact (StronglySorted_app_1_elem_of _ _ _ p (pk, q) Hsorted Hin Htail).
Qed.

Lemma lookup_published_with_choice now db pk q :
  published_with_choice now db !! pk = Some q ↔
  questions db !! pk = Some q ∧ pub_date q ≤ now ∧
  ∃ k c, choices db !! k = Some c ∧ question c = pk.
Proof.
  unfold published_with_choice. rewrite map_lookup_filter_Some.
  cbn [fst snd]. by rewrite has_choice_iff.
Qed.

Lemma get_queryset_eq now db :
  IndexView.get_queryset now db
  = (Ok (filter (has_choice db) (IndexView.latest_five now db)), db).
Proof. reflexivity. Qed.

(** C1, as amended: the listing is made of the five latest published
    questions (publication timestamp at most the clock reading, latest
    first): it keeps, in that order, those of the five that have a choice, so
    a question without a choice is never listed; and the database is left as
    it was. *)
Theorem index_lists_latest_five_with_choices (now : Z) (db : DB) :
  let top := IndexView.latest_five now db in
  let listing := filter (has_choice db) top in
  IndexView.get_queryset now db = (Ok listing, db) ∧
  (∀ p, p ∈ listing ↔
        p ∈ top ∧ ∃ k c, choices db !! k = Some c ∧ question c = p.1) ∧
  StronglySorted pub_date_desc listing ∧
  listing `sublist_of` top ∧
  (* [top] is the five latest published questions, latest first *)
  StronglySorted pub_date_desc top ∧
  NoDup top ∧
  length top = (5 `min` size (filter_pub_date_lte now (questions db)))%nat ∧
  (∀ p, p ∈ top → questions db !! p.1 = Some p.2 ∧ pub_date p.2 ≤ now) ∧
  (∀ pk q p, questions db !! pk = Some q → pub_date q ≤ now →
             (pk, q) ∉ top → p ∈ top → pub_date q ≤ pub_date p.2).
Proof.
  intros top listing. subst top listing.
  split; [apply get_queryset_eq |].
  split.
  { intros p. rewrite list_elem_of_filter, has_choice_iff. tauto. }
  split.
  { eapply StronglySorted_sublist; [apply sublist_filter | apply latest_five_sorted]. }
  split; [apply sublist_filter |].
  split; [apply latest_five_sorted |].
  split; [apply latest_five_NoDup |].
  split; [apply latest_five_length |].
  split; [apply elem_of_latest_five |].
  intros pk q p. apply latest_five_latest.
Qed.

Lemma index_lists_latest_five_with_choices_witness :
  IndexView.get_queryset 100 six_questions
  = (Ok (filter (has_choice six_questions) (IndexView.latest_five 100 six_questions)),
     six_questions) ∧
  (6, mkQuestion "Q6" 60) ∈ IndexView.latest_five 100 six_questions ∧
  (6, mkQuestion "Q6" 60)
    ∉ filter (has_choice six_questions) (IndexView.latest_five 100 six_questions).
Proof.
  destruct (index_lists_latest_five_with_choices 100 six_questions)
    as (Hget & Hin & _).
  split; [exact Hget |]. split.
  - vm_compute. apply list_elem_of_here.
  - intros Hlisted. apply Hin in Hlisted as (_ & k & c & Hkc & Hfk).
    apply elem_of_map_to_list in Hkc. vm_compute in Hkc.
    repeat (apply elem_of_cons in Hkc as [Hkc | Hkc];
            [injection Hkc as -> ->; discriminate Hfk |]).
    by apply elem_of_nil in Hkc.
Defined.

(** C1, as the specification words it, fails on six published questions of
    which the latest has no choice: the five latest with a choice would be
    Q5 to Q1, the listing is Q5 to Q2. *)
Lemma index_not_five_with_choices :
  listing_as_specified 100 six_questions
  = [(5, mkQuestion "Q5" 50); (4, mkQuestion "Q4" 40); (3, mkQuestion "Q3" 30);
     (2, mkQuestion "Q2" 20); (1, mkQuestion "Q1" 10)] ∧
  (IndexView.get_queryset 100 six_questions).1
  = Ok [(5, mkQuestion "Q5" 50); (4, mkQuestion "Q4" 40); (3, mkQuestion "Q3" 30);
        (2, mkQuestion "Q2" 20)] ∧
  (IndexView.get_queryset 100 six_questions).1
  ≠ Ok (listing_as_specified 100 six_questions).
Proof.
  split; [by vm_compute |]. split; [by vm_compute |].
  intros Heq. vm_compute in Heq. discriminate Heq.
Qed.


(** ** Vote counters over the whole workflow *)

Lemma IndexView_get_reads now db : (IndexView.get now db).2 = db.
Proof. reflexivity. Qed.

Lemma get_object_reads queryset pk db :
  (SingleObjectMixin_get_object queryset pk db).2 = db.
Proof. unfold SingleObjectMixin_get_object. by destruct (queryset db !! pk). Qed.

Lemma DetailView_get_reads now pk db : (DetailView.get now pk db).2 = db.
Proof.
  unfold DetailView.get, DetailView.get_object, mbind, bind.
  pose proof (get_object_reads (DetailView.get_queryset now) pk db) as Hreads.
  by destruct (SingleObjectMixin_get_object _ pk db) as [[p | e] db'].
Qed.

Lemma ResultsView_get_reads now pk db : (ResultsView.get now pk db).2 = db.
Proof.
  unfold ResultsView.get, ResultsView.get_object, mbind, bind.
  pose proof (get_object_reads (ResultsView.get_queryset now) pk db) as Hreads.
  by destruct (SingleObjectMixin_get_object _ pk db) as [[p | e] db'].
Qed.

(** A request either leaves the database as it was, or it is a vote for a
    choice of its question and adds 1 to the counter of that choice. *)
Lemma dispatch_effect {K : PkField} now r db :
  (dispatch now r db).2 = db ∨
  ∃ request question_id k c,
    r = PostVote request question_id ∧
    chooses request k ∧
    choices db !! k = Some c ∧ question c = question_id ∧
    (dispatch now r db).2 = voted k c db.
Proof.
  destruct r as [| pk | pk | request question_id]; cbn [dispatch].
  - left. apply IndexView_get_reads.
  - left. apply DetailView_get_reads.
  - left. apply ResultsView_get_reads.
  - destruct (vote_cases request question_id db)
      as [[_ Hv] | [(q & _ & _ & Hv) | [(q & value & _ & _ & _ & Hv)
                                       | (q & k & c & _ & Hpost & Hk & Hv)]]];
      rewrite Hv; [by left | by left | by left |].
    right. apply lookup_choice_set in Hk as [Hc Hfk].
    by exists request, question_id, k, c.
Qed.



(** ** Votes served at the same time *)

(** The three steps of a request, taken with no other step in between, are
    [vote]. *)
Lemma vote_steps_vote {K : PkField} request question_id db :
  vote_steps 3 (Received request question_id) db
  = (Responded (vote request question_id db).1, (vote request question_id db).2).
Proof.
  unfold vote_steps, vote_step. unfold_vote.
  destruct (questions db !! question_id) as [q|]; simpl; [| done].
  destruct (POST request !! "choice") as [value|]; simpl; [| done].
  destruct (to_python value) as [k|]; simpl; [| done].
  by destruct (choice_set db question_id !! k) as [c|].
Qed.

Lemma run_app {K : PkField} s1 : ∀ s2 pool db,
  run (s1 ++ s2) pool db = run s2 (run s1 pool db).1 (run s1 pool db).2.
Proof.
  induction s1 as [| i s1 IH]; intros s2 pool db; simpl; [done |].
  destruct (step_at i pool db) as [pool' db']. apply IH.
Qed.

Lemma run_replicate {K : PkField} n : ∀ i pool s db,
  pool !! i = Some s →
  run (replicate n i) pool db
  = (<[i := (vote_steps n s db).1]> pool, (vote_steps n s db).2).
Proof.
  induction n as [| n IH]; intros i pool s db Hs; simpl.
  - by rewrite list_insert_id.
  - unfold step_at. rewrite Hs.
    destruct (vote_step s db) as [s' db'].
    rewrite (IH i _ s').
    + by rewrite list_insert_insert_eq.
    + apply list_lookup_insert_eq. by eapply lookup_lt_Some.
Qed.

Lemma valid_vote_voted {K : PkField} db k c rq :
  choices db !! k = Some c → valid_vote db k rq → valid_vote (voted k c db) k rq.
Proof.
  intros Hc (Hq & Hpost & c0 & Hc0 & Hfk). simplify_eq.
  split; [done |]. split; [done |].
  eexists. simpl. rewrite lookup_insert_eq. split; [done |]. done.
Qed.

Lemma vote_valid_vote {K : PkField} db k v rq :
  votes_of db k = Some v → valid_vote db k rq →
  ∃ c, choices db !! k = Some c ∧
       vote rq.1 rq.2 db = (Ok (to_results rq.2), voted k c db) ∧
       votes_of (voted k c db) k = Some (v + 1).
Proof.
  intros Hv ([q Hq] & Hpost & c & Hc & Hfk).
  exists c. split; [done |]. split.
  - apply (vote_selected _ _ q); [done | done |]. by apply lookup_choice_set.
  - unfold votes_of in *. simpl. rewrite lookup_insert_eq. simpl.
    rewrite Hc in Hv. simpl in Hv. by simplify_eq.
Qed.

Lemma run_one_by_one {K : PkField} now k rqs : ∀ pre db v,
  votes_of db k = Some v →
  Forall (valid_vote db k) rqs →
  ∃ db',
    run (one_by_one (length pre) (length rqs)) (pre ++ (received <$> rqs)) db
    = (pre ++ (redirected <$> rqs), db') ∧
    db' = serve ((λ rq, (now, PostVote rq.1 rq.2)) <$> rqs) db ∧
    votes_of db' k = Some (v + Z.of_nat (length rqs)).
Proof.
  induction rqs as [| rq rqs IH]; intros pre db v Hv Hvalid.
  - exists db. split; [done |]. split; [done |]. rewrite Hv. f_equal. simpl. lia.
  - apply Forall_cons in Hvalid as [Hrq Hrqs].
    destruct (vote_valid_vote db k v rq Hv Hrq) as (c & Hc & Hvote & Hv').
    destruct (IH (pre ++ [redirected rq]) (voted k c db) (v + 1) Hv')
      as (db' & Hrun & Hserve & Hcount).
    { eapply Forall_impl; [exact Hrqs |]. intros rq'. by apply valid_vote_voted. }
    exists db'. split; [| split].
    + unfold one_by_one. cbn [length seq flat_map]. rewrite run_app.
      rewrite (run_replicate 3 (length pre) _ (received rq)).
      2:{ cbn [fmap list_fmap]. apply list_lookup_middle. done. }
      assert (Hsteps : vote_steps 3 (received rq) db = (redirected rq, voted k c db)).
      { unfold received. by rewrite vote_steps_vote, Hvote. }
      rewrite Hsteps. cbn [fst snd fmap list_fmap].
      rewrite insert_app_r_alt, Nat.sub_diag by done. cbn [insert list_insert].
      rewrite length_app, Nat.add_1_r in Hrun.
      rewrite <- !(assoc_L (++)) in Hrun. exact Hrun.
    + cbn [fmap list_fmap serve dispatch]. by rewrite Hvote.
    + rewrite Hcount. f_equal. cbn [length]. lia.
Qed.

(** ** The listing while at most five questions are published *)

Lemma latest_five_all now db :
  (size (filter_pub_date_lte now (questions db)) ≤ 5)%nat →
  IndexView.latest_five now db
  = order_by_pub_date_desc (filter_pub_date_lte now (questions db)).
Proof.
  intros Hsize. unfold IndexView.latest_five. apply take_ge.
  unfold order_by_pub_date_desc.
  by rewrite merge_sort_Permutation, length_map_to_list.
Qed.

Lemma elem_of_listing_within_limit now db (p : Z * Question) :
  (size (filter_pub_date_lte now (questions db)) ≤ 5)%nat →
  p ∈ filter (has_choice db) (IndexView.latest_five now db) ↔
  questions db !! p.1 = Some p.2 ∧ pub_date p.2 ≤ now ∧
  ∃ k c, choices db !! k = Some c ∧ question c = p.1.
Proof.
  intros Hsize.
  rewrite list_elem_of_filter, has_choice_iff, latest_five_all by done.
  rewrite elem_of_order_by_pub_date_desc, lookup_filter_pub_date_lte. tauto.
Qed.

Lemma published_with_choice_size now db :
  (size (published_with_choice now db)
   ≤ size (filter_pub_date_lte now (questions db)))%nat.
Proof.
  apply map_subseteq_size, map_subseteq_spec. intros pk q.
  rewrite lookup_published_with_choice, lookup_filter_pub_date_lte. tauto.
Qed.

Lemma order_by_pub_date_desc_NoDup qs : NoDup (order_by_pub_date_desc qs).
Proof.
  unfold order_by_pub_date_desc. rewrite merge_sort_Permutation.
  apply NoDup_map_to_list.
Qed.

(** While no more than five questions are published, the limit of five
    drops nothing: the listing holds exactly the published questions that
    have a choice, the same questions as the five latest published
    questions with a choice. *)
Theorem listing_complete_within_limit (now : Z) (db : DB) :
  (size (filter_pub_date_lte now (questions db)) ≤ 5)%nat →
  ∃ l,
    IndexView.get_queryset now db = (Ok l, db) ∧
    (∀ p, p ∈ l ↔
          questions db !! p.1 = Some p.2 ∧ pub_date p.2 ≤ now ∧
          ∃ k c, choices db !! k = Some c ∧ question c = p.1) ∧
    l ≡ₚ listing_as_specified now db.
Proof.
  intros Hsize.
  exists (filter (has_choice db) (IndexView.latest_five now db)).
  split; [apply get_queryset_eq |]. split.
  - intros p. by apply elem_of_listing_within_limit.
  - apply NoDup_Permutation.
    + apply NoDup_filter, latest_five_NoDup.
    + eapply sublist_NoDup; [apply order_by_pub_date_desc_NoDup | apply sublist_take].
    + intros p. rewrite elem_of_listing_within_limit by done.
      unfold listing_as_specified. rewrite take_ge.
      2:{ unfold order_by_pub_date_desc.
          rewrite merge_sort_Permutation, length_map_to_list.
          etrans; [apply published_with_choice_size | done]. }
      by rewrite elem_of_order_by_pub_date_desc, lookup_published_with_choice.
Qed.

Lemma listing_complete_within_limit_witness :
  ∃ l,
    IndexView.get_queryset 100 one_question = (Ok l, one_question) ∧
    l ≡ₚ listing_as_specified 100 one_question.
Proof.
  destruct (listing_complete_within_limit 100 one_question) as (l & Hget & _ & Hperm).
  - vm_compute. lia.
  - exists l. split; [exact Hget | exact Hperm].
Defined.

(** When no question is published at the clock reading, in particular on an
    empty question table, the index page is rendered with an empty list; it
    is a 200 response, and the index answers 200 whatever the database. *)
Theorem index_empty_when_nothing_published (now : Z) (db : DB) :
  ((∀ pk q, questions db !! pk = Some q → now < pub_date q) →
   IndexView.get now db
   = (Ok (render "polls/index.html" [("latest_question_list", VQuestions [])]),
      db)) ∧
  status_code (IndexView.get now db).1 = 200.
Proof.
  split; [| done].
  intros Hfuture.
  assert (Hnone : IndexView.latest_five now db = []).
  { apply elem_of_nil_inv. intros p Hp.
    apply elem_of_latest_five in Hp as [Hq Hpub].
    specialize (Hfuture _ _ Hq). lia. }
  unfold IndexView.get, mbind, bind. rewrite get_queryset_eq, Hnone. done.
Qed.

Lemma index_empty_when_nothing_published_witness :
  IndexView.get 10 one_question
  = (Ok (render "polls/index.html" [("latest_question_list", VQuestions [])]),
     one_question).
Proof.
  apply (index_empty_when_nothing_published 10 one_question).
  intros pk q Hq. apply elem_of_map_to_list in Hq. vm_compute in Hq.
  apply list_elem_of_singleton in Hq. injection Hq as -> ->. simpl. lia.
Defined.

(** ** What requests leave untouched *)

Lemma voted_neq k c db : choices db !! k = Some c → voted k c db ≠ db.
Proof.
  intros Hc Heq. apply (f_equal (λ d, votes <$> choices d !! k)) in Heq.
  simpl in Heq. rewrite lookup_insert_eq, Hc in Heq. simpl in Heq.
  injection Heq. lia.
Qed.

Lemma choice_set_voted_is_Some k c db question_id k' :
  choices db !! k = Some c →
  is_Some (choice_set (voted k c db) question_id !! k') ↔
  is_Some (choice_set db question_id !! k').
Proof.
  intros Hc. unfold is_Some.
  setoid_rewrite lookup_choice_set. simpl.
  destruct (decide (k = k')) as [<- | Hne].
  - rewrite lookup_insert_eq. split.
    + intros (c' & Hc' & Hfk). simplify_eq. simpl in *. eauto.
    + intros (c' & Hc' & Hfk). simplify_eq. eexists. split; [done |]. done.
  - by rewrite lookup_insert_ne.
Qed.

Lemma has_choice_voted k c db p :
  choices db !! k = Some c → has_choice (voted k c db) p ↔ has_choice db p.
Proof.
  intros Hc. rewrite !has_choice_iff. split.
  - intros (k' & c' & Hc' & Hfk).
    assert (Hsome : is_Some (choice_set (voted k c db) p.1 !! k')).
    { exists c'. by apply lookup_choice_set. }
    apply (choice_set_voted_is_Some k c db p.1 k' Hc) in Hsome as [c0 Hc0].
    apply lookup_choice_set in Hc0. eauto.
  - intros (k' & c' & Hc' & Hfk).
    assert (Hsome : is_Some (choice_set db p.1 !! k')).
    { exists c'. by apply lookup_choice_set. }
    apply (choice_set_voted_is_Some k c db p.1 k' Hc) in Hsome as [c0 Hc0].
    apply lookup_choice_set in Hc0. eauto.
Qed.

Lemma dispatch_questions {K : PkField} now r db :
  questions (dispatch now r db).2 = questions db.
Proof.
  destruct (dispatch_effect now r db)
    as [-> | (request & question_id & k & c & _ & _ & _ & _ & ->)]; done.
Qed.

Lemma serve_questions {K : PkField} rs : ∀ db,
  questions (serve rs db) = questions db.
Proof.
  induction rs as [| [now r] rs IH]; intros db; simpl; [done |].
  by rewrite IH, dispatch_questions.
Qed.

Lemma dispatch_choice_set {K : PkField} now r db question_id :
  dom (choice_set (dispatch now r db).2 question_id) = dom (choice_set db question_id).
Proof.
  destruct (dispatch_effect now r db)
    as [-> | (request & qid & k & c & _ & _ & Hc & _ & ->)]; [done |].
  apply set_eq. intros k'. rewrite !elem_of_dom.
  by apply choice_set_voted_is_Some.
Qed.

Lemma dispatch_listing {K : PkField} now' r now db :
  (IndexView.get_queryset now (dispatch now' r db).2).1
  = (IndexView.get_queryset now db).1.
Proof.
  destruct (dispatch_effect now' r db)
    as [-> | (request & qid & k & c & _ & _ & Hc & _ & ->)]; [done |].
  rewrite !get_queryset_eq. cbn [fst]. f_equal.
  change (IndexView.latest_five now (voted k c db)) with (IndexView.latest_five now db).
  apply list_filter_iff. intros p. by apply has_choice_voted.
Qed.

(** No request creates, deletes or moves a row: over any sequence of
    requests the question table is as it was, the choice table has the same
    keys, and every question keeps the same choices. *)
Theorem requests_keep_rows {K : PkField} (rs : list (Z * Request)) (db : DB) :
  questions (serve rs db) = questions db ∧
  dom (choices (serve rs db)) = dom (choices db) ∧
  (∀ question_id,
     dom (choice_set (serve rs db) question_id) = dom (choice_set db question_id)).
Proof.
  revert db. induction rs as [| [now r] rs IH]; intros db; cbn [serve]; [done |].
  destruct (IH (dispatch now r db).2) as (Hq & Hdom & Hset).
  split; [by rewrite Hq, dispatch_questions |]. split.
  - rewrite Hdom.
    destruct (dispatch_effect now r db)
      as [-> | (request & qid & k & c & _ & _ & Hc & _ & ->)]; [done |].
    simpl. by apply dom_insert_lookup_L.
  - intros question_id. by rewrite Hset, dispatch_choice_set.
Qed.

(** Votes never change the index: at a given clock reading the listing
    after any sequence of requests is the listing before it. *)
Theorem listing_unchanged_by_requests {K : PkField} (rs : list (Z * Request))
    (now : Z) (db : DB) :
  (IndexView.get_queryset now (serve rs db)).1 = (IndexView.get_queryset now db).1.
Proof.
  revert db. induction rs as [| [now' r] rs IH]; intros db; cbn [serve]; [done |].
  by rewrite IH, dispatch_listing.
Qed.

(** A vote whose choice value, if any, is the text of a key is answered by
    200, 302 or 404, and a vote is answered by 500 exactly when the question
    exists and the choice value is not the text of a key; the database is
    changed exactly when the answer is the redirect, and that is exactly
    when the question exists and the submitted key is that of one of its
    choices. *)
Theorem vote_counted_iff_redirected {K : PkField} (request : HttpRequest)
    (question_id : Z) (db : DB) :
  ((∀ value, POST request !! "choice" = Some value → is_Some (to_python value)) →
   status_code (vote request question_id db).1 = 200 ∨
   status_code (vote request question_id db).1 = 302 ∨
   status_code (vote request question_id db).1 = 404) ∧
  (status_code (vote request question_id db).1 = 500 ↔
   is_Some (questions db !! question_id) ∧
   ∃ value, POST request !! "choice" = Some value ∧ to_python value = None) ∧
  ((vote request question_id db).2 ≠ db ↔
   status_code (vote request question_id db).1 = 302) ∧
  (status_code (vote request question_id db).1 = 302 ↔
   is_Some (questions db !! question_id) ∧
   ∃ k c, chooses request k ∧
          choices db !! k = Some c ∧ question c = question_id).
Proof.
  destruct (vote_cases request question_id db)
    as [[Hq Hv] | [(q & Hq & Hsel & Hv) | [(q & value & Hq & Hpost & Hvalue & Hv)
                                          | (q & k & c & Hq & Hpost & Hk & Hv)]]];
    rewrite Hv; cbn [fst snd status_code redisplay to_results].
  - split; [auto |].
    split; [split; [discriminate | intros [[q Hq'] _]; congruence] |].
    split; [split; [done | discriminate] |].
    split; [discriminate |]. intros [[q Hq'] _]. congruence.
  - split; [auto |]. split.
    { split; [discriminate |]. intros (_ & value & Hpost & Hvalue).
      destruct Hsel as [Hnone | (k' & (value' & Hpost' & Hvalue') & _)]; congruence. }
    split; [split; [done | discriminate] |].
    split; [discriminate |]. intros (_ & k & c & Hchooses & Hc & Hfk).
    destruct Hsel as [Hnone | (k' & Hchooses' & Hk')].
    + destruct Hchooses as (value & Hpost & _). congruence.
    + rewrite (chooses_inj _ _ _ Hchooses' Hchooses) in Hk'.
      pose proof (proj1 (lookup_choice_set_None _ _ _) Hk') as Hno.
      exfalso. by eapply Hno.
  - split.
    { intros Hkey. destruct (Hkey value Hpost) as [k Hk]. congruence. }
    split; [split; [eauto | done] |].
    split; [split; [done | discriminate] |].
    split; [discriminate |]. intros (_ & k & c & (value' & Hpost' & Hvalue') & _).
    congruence.
  - apply lookup_choice_set in Hk as [Hc Hfk].
    split; [auto |]. split.
    { split; [discriminate |]. intros (_ & value & Hpost' & Hvalue).
      destruct Hpost as (value' & Hpost & Hvalue'). congruence. }
    split.
    + split; [done |]. intros _. by apply voted_neq.
    + split; [| done]. intros _. split; [eauto |]. eauto.
Qed.

Lemma vote_counted_iff_redirected_witness :
  status_code (vote (vote_for "8") 1 one_question).1 = 200 ∨
  status_code (vote (vote_for "8") 1 one_question).1 = 302 ∨
  status_code (vote (vote_for "8") 1 one_question).1 = 404.
Proof.
  apply (vote_counted_iff_redirected (vote_for "8") 1 one_question).
  intros value Hvalue. vm_compute in Hvalue. injection Hvalue as <-.
  by exists 8.
Defined.

(** ** Following the redirect, and the passing of time *)

(** After a counted vote, the results page the redirect points to shows the
    question if it is published, with the new count among its choices; for
    a question not yet published the vote is counted all the same and the
    redirect leads to a 404. *)
Theorem results_after_vote {K : PkField} (request : HttpRequest)
    (question_id : Z) (q : Question) (k : Z) (c : Choice) (now : Z) (db : DB) :
  questions db !! question_id = Some q →
  chooses request k →
  choices db !! k = Some c →
  question c = question_id →
  (vote request question_id db).1
    = Ok (HttpResponseRedirect (reverse "polls:results" [question_id])) ∧
  choice_set (vote request question_id db).2 question_id !! k
    = Some (mkChoice question_id (choice_text c) (votes c + 1)) ∧
  (pub_date q ≤ now →
   ResultsView.get now question_id (vote request question_id db).2
   = (Ok (render "polls/results.html" [("question", VQuestion (question_id, q))]),
      (vote request question_id db).2)) ∧
  (now < pub_date q →
   ResultsView.get now question_id (vote request question_id db).2
   = (Raise Http404, (vote request question_id db).2)).
Proof.
  intros Hq Hpost Hc Hfk.
  rewrite (vote_selected request question_id q k c db Hq Hpost)
    by (by apply lookup_choice_set).
  cbn [fst snd]. split; [done |]. split.
  { apply lookup_choice_set. simpl. rewrite lookup_insert_eq. by rewrite Hfk. }
  unfold ResultsView.get, ResultsView.get_object, ResultsView.get_queryset, mbind, bind.
  split.
  - intros Hpub. by rewrite (get_object_published now question_id q).
  - intros Hfuture. rewrite get_object_not_found; [done |].
    intros q' Hq'. simpl in Hq'. by simplify_eq.
Qed.

Lemma results_after_vote_witness :
  (vote (vote_for "7") 1 one_question).1
    = Ok (HttpResponseRedirect (reverse "polls:results" [1])) ∧
  ResultsView.get 10 1 (vote (vote_for "7") 1 one_question).2
    = (Raise Http404, (vote (vote_for "7") 1 one_question).2).
Proof.
  destruct (results_after_vote (vote_for "7") 1 (mkQuestion "What's my choice?" 50) 7
              (new_choice 1 "Me.") 10 one_question)
    as (Hvote & _ & _ & Hfuture);
    [reflexivity | by exists "7" | reflexivity | reflexivity |].
  split; [exact Hvote |]. apply Hfuture. simpl. lia.
Defined.

(** Publication is for good: a question that the detail or results lookup
    finds at one clock reading is found at every later reading, whatever
    requests were served in between. *)
Theorem published_stays_published {K : PkField} (now now' pk : Z)
    (p : Z * Question) (rs : list (Z * Request)) (db : DB) :
  now ≤ now' →
  (DetailView.get_object now pk db).1 = Ok p →
  (DetailView.get_object now' pk (serve rs db)).1 = Ok p ∧
  (ResultsView.get_object now' pk (serve rs db)).1 = Ok p.
Proof.
  intros Hlater Hfound.
  destruct (DetailView.get_object now pk db) as [r db'] eqn:Hget.
  simpl in Hfound. subst r.
  apply get_object_inv in Hget as (Hpk & Hq & Hpub & _).
  destruct p as [pk' q]. simpl in *. subst pk'.
  unfold DetailView.get_object, DetailView.get_queryset,
    ResultsView.get_object, ResultsView.get_queryset.
  rewrite (get_object_published now' pk q); [done | | lia].
  by rewrite serve_questions.
Qed.

Lemma published_stays_published_witness :
  (DetailView.get_object 200 1
     (serve [(120, PostVote (vote_for "7") 1); (150, GetIndex)] one_question)).1
  = Ok (1, mkQuestion "What's my choice?" 50).
Proof.
  apply (published_stays_published 100 200 1 (1, mkQuestion "What's my choice?" 50)
           [(120, PostVote (vote_for "7") 1); (150, GetIndex)] one_question);
    [lia | reflexivity].
Defined.

(** ** The fixtures of the tests against the views *)

Lemma foldr_max_ge (ks : list Z) k : k ∈ ks → k ≤ foldr Z.max 0 ks.
Proof.
  induction ks as [| k' ks IH]; intros Hk.
  - by apply elem_of_nil in Hk.
  - simpl. apply elem_of_cons in Hk as [-> | Hk]; [lia |].
    specialize (IH Hk). lia.
Qed.

Lemma next_pk_fresh {A} (table : gmap Z A) : table !! next_pk table = None.
Proof.
  destruct (table !! next_pk table) as [x|] eqn:Hx; [| done].
  apply elem_of_map_to_list in Hx.
  assert (Hk : next_pk table ∈ (map_to_list table).*1).
  { apply list_elem_of_fmap. by exists (next_pk table, x). }
  apply foldr_max_ge in Hk. unfold next_pk in Hk. lia.
Qed.

Lemma next_pk_positive {A} (table : gmap Z A) : 1 ≤ next_pk table.
Proof.
  unfold next_pk. generalize ((map_to_list table).*1). intros ks.
  induction ks as [| k ks IH]; simpl; lia.
Qed.

Lemma create_question_in_range t1 text days db :
  offset_in_range t1 days →
  create_question t1 text days db
  = (Ok (next_pk (questions db), mkQuestion text (t1 + days * one_day)),
     mkDB (<[next_pk (questions db) := mkQuestion text (t1 + days * one_day)]>
             (questions db))
          (choices db)).
Proof.
  intros [Hdays Hsum].
  unfold create_question, timedelta_days, datetime_add, mbind, bind.
  rewrite bool_decide_eq_true_2 by done. cbn [mret ret].
  by rewrite bool_decide_eq_true_2 by done.
Qed.

Lemma create_question_overflow t1 text days db :
  ¬ offset_in_range t1 days →
  create_question t1 text days db = (Raise OverflowError, db).
Proof.
  intros Hout.
  unfold create_question, timedelta_days, datetime_add, mbind, bind.
  case_bool_decide as Hdays; [| done]. cbn [mret ret].
  case_bool_decide as Hsum; [| done].
  destruct Hout. by split.
Qed.

(** A question created with an offset of [days] at the clock reading [t1],
    when the offset is a [timedelta] and leads to a datetime, gets a key
    that no question had (so no other question row changes, and no choice
    row), and the detail and results lookups find it from [t1 + days] on and
    answer 404 before: at once and for good when the offset is not
    positive.  Otherwise [create_question] ends in [OverflowError] and
    inserts nothing. *)
Theorem created_question_visible_from_pub_date (t1 : Z) (text : string) (days t2 : Z)
    (db : DB) :
  (offset_in_range t1 days →
   ∃ p db',
     create_question t1 text days db = (Ok p, db') ∧
     p.2 = mkQuestion text (t1 + days * one_day) ∧
     questions db !! p.1 = None ∧
     questions db' !! p.1 = Some p.2 ∧
     (∀ pk, pk ≠ p.1 → questions db' !! pk = questions db !! pk) ∧
     choices db' = choices db ∧
     (t1 + days * one_day ≤ t2 →
      DetailView.get_object t2 p.1 db' = (Ok p, db') ∧
      ResultsView.get_object t2 p.1 db' = (Ok p, db')) ∧
     (t2 < t1 + days * one_day →
      DetailView.get_object t2 p.1 db' = (Raise Http404, db') ∧
      ResultsView.get_object t2 p.1 db' = (Raise Http404, db')) ∧
     (days ≤ 0 → t1 ≤ t2 → DetailView.get_object t2 p.1 db' = (Ok p, db'))) ∧
  (¬ offset_in_range t1 days →
   create_question t1 text days db = (Raise OverflowError, db)).
Proof.
  split; [| apply create_question_overflow].
  intros Hrange.
  eexists (next_pk (questions db), mkQuestion text (t1 + days * one_day)), _.
  split; [by apply create_question_in_range |]. cbn [fst snd].
  assert (Hnew : <[next_pk (questions db) := mkQuestion text (t1 + days * one_day)]>
                   (questions db) !! next_pk (questions db)
                 = Some (mkQuestion text (t1 + days * one_day)))
    by apply lookup_insert_eq.
  assert (Hfound : t1 + days * one_day ≤ t2 →
    ∀ db', questions db' !! next_pk (questions db)
           = Some (mkQuestion text (t1 + days * one_day)) →
    SingleObjectMixin_get_object (λ db, filter_pub_date_lte t2 (questions db))
      (next_pk (questions db)) db'
    = (Ok (next_pk (questions db), mkQuestion text (t1 + days * one_day)), db')).
  { intros Hpub db' Hq. by apply get_object_published. }
  split; [done |]. split; [apply next_pk_fresh |]. split; [exact Hnew |].
  split; [intros pk Hne; simpl; by apply lookup_insert_ne |].
  split; [done |].
  unfold DetailView.get_object, DetailView.get_queryset,
    ResultsView.get_object, ResultsView.get_queryset.
  split; [| split].
  - intros Hpub. split; by apply Hfound.
  - intros Hfuture.
    rewrite get_object_not_found; [done |].
    intros q Hq. simpl in Hq. rewrite Hnew in Hq. by simplify_eq.
  - intros Hdays Hclock. apply Hfound; [| exact Hnew].
    unfold one_day. nia.
Qed.

Lemma created_question_visible_from_pub_date_witness :
  (∃ p db',
     create_question 1000 "Future question" 30 one_question = (Ok p, db') ∧
     DetailView.get_object (1000 + 29 * one_day) p.1 db' = (Raise Http404, db')) ∧
  create_question 1000 "Future question" 1000000000 one_question
  = (Raise OverflowError, one_question).
Proof.
  destruct (created_question_visible_from_pub_date 1000 "Future question" 30
              (1000 + 29 * one_day) one_question) as [Hcreated _].
  destruct (created_question_visible_from_pub_date 1000 "Future question" 1000000000
              0 one_question) as [_ Hoverflow].
  split.
  - destruct Hcreated as (p & db' & Hcreate & _ & _ & _ & _ & _ & _ & Hfuture & _).
    + unfold offset_in_range, datetime_min, datetime_max, one_day. lia.
    + exists p, db'. split; [exact Hcreate |].
      apply Hfuture. unfold one_day. lia.
  - apply Hoverflow. unfold offset_in_range. lia.
Defined.

Lemma published_size_insert now (qs : gmap Z Question) pk q :
  qs !! pk = None →
  (size (filter_pub_date_lte now (<[pk := q]> qs))
   ≤ S (size (filter_pub_date_lte now qs)))%nat.
Proof.
  intros Hfresh. unfold filter_pub_date_lte. rewrite map_filter_insert.
  case_decide.
  - rewrite map_size_insert.
    destruct (filter _ qs !! pk); simpl; lia.
  - rewrite delete_id by done. lia.
Qed.

(** While fewer than five questions are published, a question created
    (with an offset that is a [timedelta] and leads to a datetime) and given
    a choice (whose counter is 0) is listed by the index exactly from its
    publication on, and pushes no listed question out; created without a
    choice, in a database whose choices all belong to existing questions, it
    is not listed. *)
Theorem created_question_listed (t1 : Z) (text : string) (days : Z)
    (choice : string) (t2 : Z) (db : DB) :
  offset_in_range t1 days →
  (size (filter_pub_date_lte t2 (questions db)) < 5)%nat →
  ∃ p db1 c db2 l,
    create_question t1 text days db = (Ok p, db1) ∧
    choice_set_create p choice db1 = (Ok c, db2) ∧
    choices db2 !! c.1 = Some (mkChoice p.1 choice 0) ∧
    IndexView.get_queryset t2 db2 = (Ok l, db2) ∧
    (p ∈ l ↔ t1 + days * one_day ≤ t2) ∧
    (∀ p', p' ∈ (filter (has_choice db) (IndexView.latest_five t2 db)) → p' ∈ l) ∧
    ((∀ k c0, choices db !! k = Some c0 → is_Some (questions db !! question c0)) →
     p ∉ filter (has_choice db1) (IndexView.latest_five t2 db1)).
Proof.
  intros Hrange Hsize.
  set (pk := next_pk (questions db)).
  set (q := mkQuestion text (t1 + days * one_day)).
  set (db1 := mkDB (<[pk := q]> (questions db)) (choices db)).
  set (k := next_pk (choices db)).
  set (db2 := mkDB (questions db1) (<[k := new_choice pk choice]> (choices db1))).
  assert (Hpk : questions db !! pk = None) by apply next_pk_fresh.
  assert (Hk : choices db !! k = None) by apply next_pk_fresh.
  assert (Hsize2 : (size (filter_pub_date_lte t2 (questions db2)) ≤ 5)%nat).
  { etrans; [apply (published_size_insert t2 (questions db) pk q Hpk) | lia]. }
  exists (pk, q), db1, (k, new_choice pk choice), db2,
    (filter (has_choice db2) (IndexView.latest_five t2 db2)).
  split; [by apply create_question_in_range |]. split; [reflexivity |].
  split; [apply lookup_insert_eq |].
  split; [apply get_queryset_eq |].
  split; [| split].
  - rewrite elem_of_listing_within_limit by done. cbn [fst snd].
    split; [intros (_ & Hpub & _); exact Hpub |].
    intros Hpub. split; [apply lookup_insert_eq |]. split; [exact Hpub |].
    exists k, (new_choice pk choice). split; [apply lookup_insert_eq | done].
  - intros p'. rewrite !elem_of_listing_within_limit by (done || lia).
    intros (Hq' & Hpub' & k' & c' & Hc' & Hfk').
    assert (p'.1 ≠ pk) by (intros Heq; rewrite Heq in Hq'; congruence).
    assert (k' ≠ k) by (intros Heq; rewrite Heq in Hc'; congruence).
    split; [simpl; by rewrite lookup_insert_ne |]. split; [done |].
    exists k', c'. split; [simpl; by rewrite lookup_insert_ne | done].
  - intros Hfks Hlisted.
    apply list_elem_of_filter in Hlisted as [Hchoice _].
    apply has_choice_iff in Hchoice as (k' & c' & Hc' & Hfk'). cbn [fst] in Hfk'.
    destruct (Hfks k' c' Hc') as [q' Hq']. rewrite Hfk' in Hq'. congruence.
Qed.

Lemma created_question_listed_witness :
  ∃ p db1 c db2 l,
    create_question 1000 "Past question." (-30) one_question = (Ok p, db1) ∧
    choice_set_create p "Sure." db1 = (Ok c, db2) ∧
    IndexView.get_queryset 1000 db2 = (Ok l, db2) ∧
    p ∈ l.
Proof.
  destruct (created_question_listed 1000 "Past question." (-30) "Sure." 1000 one_question)
    as (p & db1 & c & db2 & l & Hcreate & Hchoice & _ & Hget & Hlisted & _).
  - unfold offset_in_range, datetime_min, datetime_max, one_day. lia.
  - vm_compute. lia.
  - exists p, db1, c, db2, l. split; [exact Hcreate |]. split; [exact Hchoice |].
    split; [exact Hget |]. apply Hlisted. unfold one_day. lia.
Defined.

(** ** Votes served at the same time: what every schedule keeps *)

Lemma answered_insert pool : ∀ i s s',
  pool !! i = Some s →
  (answered (<[i := s']> pool) + (if is_answered s then 1 else 0)
   = answered pool + (if is_answered s' then 1 else 0))%nat.
Proof.
  induction pool as [| s0 pool IH]; intros i s s' Hs; [done |].
  destruct i as [| i]; simpl in *.
  - simplify_eq. lia.
  - specialize (IH i s s' Hs). lia.
Qed.

Lemma answered_le_length pool : (answered pool ≤ length pool)%nat.
Proof.
  induction pool as [| s pool IH]; simpl; [lia |].
  destruct (is_answered s); lia.
Qed.

Lemma run_length {K : PkField} schedule : ∀ pool db,
  length (run schedule pool db).1 = length pool.
Proof.
  induction schedule as [| i schedule IH]; intros pool db; simpl; [done |].
  unfold step_at. destruct (pool !! i) as [s|]; [| apply IH].
  destruct (vote_step s db) as [s' db']. rewrite IH. apply length_insert.
Qed.

Lemma voting_for_weaken {K : PkField} qs k q0 lo hi hi' s :
  hi ≤ hi' → voting_for qs k q0 lo hi s → voting_for qs k q0 lo hi' s.
Proof.
  intros Hhi. destruct s as [request qid | request p | p sc | r]; simpl; try done.
  intros (? & ? & ?). repeat split; [done | done | lia | lia].
Qed.

(** One step of one request keeps [votes_in_flight]. *)
Lemma step_at_votes_in_flight {K : PkField} k q0 v i pool db :
  votes_in_flight k q0 v pool db →
  votes_in_flight k q0 v (step_at i pool db).1 (step_at i pool db).2.
Proof.
  intros [(c & Hc & Hfk & Hbounds & Hpos) Hpool].
  unfold step_at. destruct (pool !! i) as [s|] eqn:Hs; [| by split; eauto].
  pose proof (Forall_lookup_1 _ _ _ _ Hpool Hs) as Hok.
  destruct s as [request qid | request p | p sc | r]; simpl in Hok.
  - (* line 46: the question is fetched *)
    destruct Hok as (-> & [q Hq] & Hpost).
    unfold vote_step, get_object_or_404. rewrite Hq. cbn [fst snd].
    pose proof (answered_insert pool i _ (Resolved request (q0, q)) Hs) as Ha.
    simpl in Ha. assert (Heq : answered (<[i:=Resolved request (q0, q)]> pool)
                               = answered pool) by lia.
    split; rewrite Heq; [eauto 10 |].
    apply Forall_insert; [done |]. simpl. done.
  - (* line 48: the choice is fetched *)
    destruct Hok as (Hp & value & Hpost & Hvalue).
    unfold vote_step, POST_getitem, choice_set_get, mbind, bind.
    rewrite Hpost. simpl. rewrite Hvalue.
    rewrite (proj2 (lookup_choice_set db p.1 k c)) by (split; congruence).
    cbn [fst snd].
    pose proof (answered_insert pool i _ (Selected p (k, c)) Hs) as Ha.
    simpl in Ha. assert (Heq : answered (<[i:=Selected p (k, c)]> pool)
                               = answered pool) by lia.
    split; rewrite Heq; [eauto 10 |].
    apply Forall_insert; [done |]. simpl. done.
  - (* lines 56-57: the counter in hand, plus one, is written *)
    destruct Hok as (Hk & Hsc & Hvotes).
    unfold vote_step, save, incr_votes. cbn [fst snd].
    pose proof (answered_insert pool i _
                  (Responded (Ok (HttpResponseRedirect (reverse "polls:results" [p.1]))))
                  Hs) as Ha.
    simpl in Ha.
    set (pool' := <[i:=Responded (Ok (HttpResponseRedirect
                                        (reverse "polls:results" [p.1])))]> pool) in *.
    assert (Heq : answered pool' = S (answered pool)) by lia.
    split.
    + eexists. rewrite Hk. simpl. rewrite lookup_insert_eq.
      split; [done |]. simpl. split; [done |]. rewrite Heq. lia.
    + rewrite Heq. apply Forall_insert.
      * eapply Forall_impl; [exact Hpool |]. intros s.
        apply voting_for_weaken. lia.
      * simpl. by exists p.1.
  - (* answered already *)
    unfold vote_step. cbn [fst snd]. rewrite list_insert_id by done.
    split; eauto 10.
Qed.

Lemma run_votes_in_flight {K : PkField} k q0 v schedule : ∀ pool db,
  votes_in_flight k q0 v pool db →
  votes_in_flight k q0 v (run schedule pool db).1 (run schedule pool db).2.
Proof.
  induction schedule as [| i schedule IH]; intros pool db Hinv; simpl; [done |].
  pose proof (step_at_votes_in_flight k q0 v i pool db Hinv) as Hstep.
  destruct (step_at i pool db) as [pool' db']. by apply IH.
Qed.

Lemma answered_received rqs : answered (received <$> rqs) = 0%nat.
Proof. induction rqs as [| rq rqs IH]; simpl; [done | exact IH]. Qed.

Lemma votes_in_flight_received {K : PkField} db k v rqs :
  votes_of db k = Some v →
  Forall (valid_vote db k) rqs →
  ∃ q0, votes_in_flight k q0 v (received <$> rqs) db.
Proof.
  unfold votes_of. intros Hv Hvalid.
  destruct (choices db !! k) as [c|] eqn:Hc; [| done]. simpl in Hv. simplify_eq.
  exists (question c). split.
  - exists c. rewrite answered_received. simpl.
    split; [done |]. split; [done |]. split; [lia | lia].
  - apply Forall_fmap. eapply Forall_impl; [exact Hvalid |].
    intros [request qid] (Hq & Hpost & c' & Hc' & Hfk). simpl in *.
    simplify_eq. done.
Qed.

(** However the database steps of valid votes for one choice interleave,
    the counter never falls below its value before the votes, never exceeds
    it by more than the number of votes answered so far (so by no more than
    the number of votes), is above it as soon as one vote is answered, and
    every answer is the redirect. *)
Theorem interleaved_votes_bounded {K : PkField} (db : DB) (k v : Z)
    (rqs : list (HttpRequest * Z)) (schedule : list nat) :
  votes_of db k = Some v →
  Forall (valid_vote db k) rqs →
  ∃ n,
    votes_of (run schedule (received <$> rqs) db).2 k = Some n ∧
    v ≤ n ≤ v + Z.of_nat (answered (run schedule (received <$> rqs) db).1) ∧
    (answered (run schedule (received <$> rqs) db).1 ≤ length rqs)%nat ∧
    ((0 < answered (run schedule (received <$> rqs) db).1)%nat → v + 1 ≤ n) ∧
    (∀ r, Responded r ∈ (run schedule (received <$> rqs) db).1 →
          ∃ question_id, r = Ok (to_results question_id)).
Proof.
  intros Hv Hvalid.
  destruct (votes_in_flight_received db k v rqs Hv Hvalid) as [q0 Hinit].
  pose proof (run_votes_in_flight k q0 v schedule _ _ Hinit)
    as [(c & Hc & _ & Hbounds & Hpos) Hpool].
  exists (votes c). split; [unfold votes_of; by rewrite Hc |].
  split; [exact Hbounds |]. split; [| split; [exact Hpos |]].
  - etrans; [apply answered_le_length |].
    by rewrite run_length, length_fmap.
  - intros r Hr. rewrite Forall_forall in Hpool. exact (Hpool _ Hr).
Qed.

Lemma interleaved_votes_bounded_witness :
  ∃ n,
    votes_of (run [0; 1; 0; 1; 0; 1]%nat
                (received <$> [(vote_for "7", 1); (vote_for "7", 1)]) one_question).2 7
    = Some n ∧
    0 ≤ n ≤ 0 + Z.of_nat (answered
              (run [0; 1; 0; 1; 0; 1]%nat
                 (received <$> [(vote_for "7", 1); (vote_for "7", 1)]) one_question).1).
Proof.
  destruct (interleaved_votes_bounded one_question 7 0
              [(vote_for "7", 1); (vote_for "7", 1)] [0; 1; 0; 1; 0; 1]%nat)
    as (n & Hn & Hbounds & _).
  - reflexivity.
  - assert (Hvalid : valid_vote one_question 7 (vote_for "7", 1)).
    { split; [exists (mkQuestion "What's my choice?" 50); reflexivity |].
      split; [exists "7"; split; reflexivity |].
      exists (new_choice 1 "Me."). split; reflexivity. }
    apply Forall_cons_2; [exact Hvalid |].
    apply Forall_cons_2; [exact Hvalid | apply Forall_nil_2].
  - exists n. split; [exact Hn | exact Hbounds].
Defined.

(** ** What the limit of five leaves out *)

(** A published question is left out of the five latest only when five
    published questions are at least as recent: so a published question
    with a choice is missing from the listing only behind five such
    questions, and each question of the listing is at least as recent as
    it. *)
Theorem unlisted_only_behind_five (now pk : Z) (q : Question) (db : DB) :
  questions db !! pk = Some q →
  pub_date q ≤ now →
  has_choice db (pk, q) →
  (pk, q) ∉ filter (has_choice db) (IndexView.latest_five now db) →
  length (IndexView.latest_five now db) = 5%nat ∧
  (∀ p, p ∈ IndexView.latest_five now db → pub_date q ≤ pub_date p.2) ∧
  (∀ p, p ∈ filter (has_choice db) (IndexView.latest_five now db) →
        pub_date q ≤ pub_date p.2).
Proof.
  intros Hq Hpub Hchoice Hunlisted.
  assert (Hout : (pk, q) ∉ IndexView.latest_five now db).
  { intros Hin. apply Hunlisted. by apply list_elem_of_filter. }
  split; [| split].
  - rewrite latest_five_length.
    destruct (decide (size (filter_pub_date_lte now (questions db)) ≤ 5)%nat)
      as [Hsmall | Hlarge]; [| lia].
    exfalso. apply Hout. rewrite latest_five_all by done.
    apply elem_of_order_by_pub_date_desc. simpl.
    by apply lookup_filter_pub_date_lte.
  - intros p Hp. by apply (latest_five_latest now db pk q p).
  - intros p Hp. apply list_elem_of_filter in Hp as [_ Hp].
    by apply (latest_five_latest now db pk q p).
Qed.

Lemma unlisted_only_behind_five_witness :
  length (IndexView.latest_five 100 six_questions) = 5%nat ∧
  (∀ p, p ∈ IndexView.latest_five 100 six_questions → 10 ≤ pub_date p.2).
Proof.
  destruct (unlisted_only_behind_five 100 1 (mkQuestion "Q1" 10) six_questions)
    as (Hfive & Hlatest & _).
  - reflexivity.
  - simpl. lia.
  - unfold has_choice. vm_compute. discriminate.
  - intros Hlisted. vm_compute in Hlisted.
    repeat (apply elem_of_cons in Hlisted as [Hlisted | Hlisted];
            [discriminate Hlisted |]).
    by apply elem_of_nil in Hlisted.
  - split; [exact Hfive | exact Hlatest].
Defined.

(** ** Votes that hold the choice in turn *)

Lemma holding_insert pool : ∀ i s s',
  pool !! i = Some s →
  (holding (<[i := s']> pool) + (if is_selected s then 1 else 0)
   = holding pool + (if is_selected s' then 1 else 0))%nat.
Proof.
  induction pool as [| s0 pool IH]; intros i s s' Hs; [done |].
  destruct i as [| i]; simpl in *.
  - simplify_eq. lia.
  - specialize (IH i s s' Hs). lia.
Qed.

Lemma holding_none pool :
  holding pool = 0%nat → Forall (λ s, is_selected s = false) pool.
Proof.
  induction pool as [| s pool IH]; simpl; intros Hnone; [constructor |].
  destruct (is_selected s) eqn:Hs; [lia |].
  constructor; [done | apply IH; lia].
Qed.

Lemma holding_received rqs : holding (received <$> rqs) = 0%nat.
Proof. induction rqs as [| rq rqs IH]; simpl; [done | exact IH]. Qed.

Lemma answered_redirected rqs : answered (redirected <$> rqs) = length rqs.
Proof. induction rqs as [| rq rqs IH]; simpl; [done | by f_equal]. Qed.

Lemma voting_for_not_selected {K : PkField} qs k q0 lo hi lo' hi' s :
  is_selected s = false →
  voting_for qs k q0 lo hi s → voting_for qs k q0 lo' hi' s.
Proof. by destruct s. Qed.

(** One step keeps the counter and the requests of [votes_in_turn]. *)
Lemma step_at_votes_in_turn {K : PkField} k q0 v i pool db :
  votes_in_turn k q0 v pool db →
  (holding (step_at i pool db).1 ≤ 1)%nat →
  votes_in_turn k q0 v (step_at i pool db).1 (step_at i pool db).2.
Proof.
  intros [(c & Hc & Hfk & Hvotes) [Hpool Hhold]] Hnext.
  split; [| split; [| exact Hnext]]; clear Hnext;
    unfold step_at; (destruct (pool !! i) as [s|] eqn:Hs; [| by eauto]);
    pose proof (Forall_lookup_1 _ _ _ _ Hpool Hs) as Hok;
    destruct s as [request qid | request p | p sc | r]; simpl in Hok.
  - destruct Hok as (-> & [q Hq] & Hpost).
    unfold vote_step, get_object_or_404. rewrite Hq. cbn [fst snd].
    pose proof (answered_insert pool i _ (Resolved request (q0, q)) Hs) as Ha.
    simpl in Ha. replace (answered (<[i:=Resolved request (q0, q)]> pool))
      with (answered pool) by lia. eauto.
  - destruct Hok as (Hp & value & Hpost & Hvalue).
    unfold vote_step, POST_getitem, choice_set_get, mbind, bind.
    rewrite Hpost. simpl. rewrite Hvalue.
    rewrite (proj2 (lookup_choice_set db p.1 k c)) by (split; congruence).
    cbn [fst snd].
    pose proof (answered_insert pool i _ (Selected p (k, c)) Hs) as Ha.
    simpl in Ha. replace (answered (<[i:=Selected p (k, c)]> pool))
      with (answered pool) by lia. eauto.
  - destruct Hok as (Hk & Hsc & Hheld).
    unfold vote_step, save, incr_votes. cbn [fst snd].
    pose proof (answered_insert pool i _
                  (Responded (Ok (HttpResponseRedirect (reverse "polls:results" [p.1]))))
                  Hs) as Ha.
    simpl in Ha. eexists. rewrite Hk. simpl. rewrite lookup_insert_eq.
    split; [done |]. simpl. split; [done |]. lia.
  - unfold vote_step. cbn [fst snd]. rewrite list_insert_id by done. eauto.
  - destruct Hok as (-> & [q Hq] & Hpost).
    unfold vote_step, get_object_or_404. rewrite Hq. cbn [fst snd].
    pose proof (answered_insert pool i _ (Resolved request (q0, q)) Hs) as Ha.
    simpl in Ha. replace (answered (<[i:=Resolved request (q0, q)]> pool))
      with (answered pool) by lia.
    apply Forall_insert; [done |]. simpl. done.
  - destruct Hok as (Hp & value & Hpost & Hvalue).
    unfold vote_step, POST_getitem, choice_set_get, mbind, bind.
    rewrite Hpost. simpl. rewrite Hvalue.
    rewrite (proj2 (lookup_choice_set db p.1 k c)) by (split; congruence).
    cbn [fst snd].
    pose proof (answered_insert pool i _ (Selected p (k, c)) Hs) as Ha.
    simpl in Ha. replace (answered (<[i:=Selected p (k, c)]> pool))
      with (answered pool) by lia.
    apply Forall_insert; [done |]. simpl. split; [done |]. split; [done | lia].
  - destruct Hok as (Hk & Hsc & Hheld).
    unfold vote_step, save, incr_votes. cbn [fst snd].
    set (s' := Responded (Ok (HttpResponseRedirect (reverse "polls:results" [p.1])))).
    pose proof (holding_insert pool i _ s' Hs) as Hh. simpl in Hh.
    assert (Hnone : holding (<[i:=s']> pool) = 0%nat) by lia.
    assert (Hkept : Forall (voting_for (questions db) k q0
                              (v + Z.of_nat (answered pool))
                              (v + Z.of_nat (answered pool))) (<[i:=s']> pool)).
    { apply Forall_insert; [done |]. simpl. by exists p.1. }
    pose proof (conj (holding_none _ Hnone) Hkept) as Hboth.
    apply Forall_and in Hboth.
    eapply Forall_impl; [exact Hboth |]. intros s [Hs0 Hs1].
    by eapply voting_for_not_selected.
  - unfold vote_step. cbn [fst snd]. by rewrite list_insert_id.
Qed.

Lemma run_votes_in_turn {K : PkField} k q0 v schedule : ∀ pool db,
  votes_in_turn k q0 v pool db →
  exclusive schedule pool db = true →
  votes_in_turn k q0 v (run schedule pool db).1 (run schedule pool db).2.
Proof.
  induction schedule as [| i schedule IH]; intros pool db Hinv Hexcl; simpl; [done |].
  simpl in Hexcl.
  pose proof (step_at_votes_in_turn k q0 v i pool db Hinv) as Hstep.
  destruct (step_at i pool db) as [pool' db'].
  apply andb_true_iff in Hexcl as [Hhold Hrest].
  apply bool_decide_eq_true in Hhold. apply IH; [by apply Hstep | done].
Qed.

Lemma votes_in_turn_received {K : PkField} db k v rqs :
  votes_of db k = Some v →
  Forall (valid_vote db k) rqs →
  ∃ q0, votes_in_turn k q0 v (received <$> rqs) db.
Proof.
  unfold votes_of. intros Hv Hvalid.
  destruct (choices db !! k) as [c|] eqn:Hc; [| done]. simpl in Hv. simplify_eq.
  exists (question c). split; [| split].
  - exists c. rewrite answered_received. simpl.
    split; [done |]. split; [done | lia].
  - apply Forall_fmap. eapply Forall_impl; [exact Hvalid |].
    intros [request qid] (Hq & Hpost & c' & Hc' & Hfk). simpl in *.
    simplify_eq. done.
  - rewrite holding_received. lia.
Qed.

Lemma exclusive_app {K : PkField} s1 : ∀ s2 pool db,
  exclusive (s1 ++ s2) pool db
  = exclusive s1 pool db && exclusive s2 (run s1 pool db).1 (run s1 pool db).2.
Proof.
  induction s1 as [| i s1 IH]; intros s2 pool db; simpl; [done |].
  destruct (step_at i pool db) as [pool' db']. rewrite IH.
  by rewrite andb_assoc.
Qed.

Lemma step_at_thread {K : PkField} i pool db s :
  pool !! i = Some s →
  (step_at i pool db).1 !! i = Some (vote_step s db).1 ∧
  (step_at i pool db).2 = (vote_step s db).2 ∧
  (holding (step_at i pool db).1 + (if is_selected s then 1 else 0)
   = holding pool + (if is_selected (vote_step s db).1 then 1 else 0))%nat.
Proof.
  intros Hs. unfold step_at. rewrite Hs.
  destruct (vote_step s db) as [s' db']. cbn [fst snd].
  split; [| split; [done |]].
  - apply list_lookup_insert_eq. by eapply lookup_lt_Some.
  - by apply holding_insert.
Qed.

Lemma vote_step_received {K : PkField} request question_id db :
  (∃ p, (vote_step (Received request question_id) db).1 = Resolved request p) ∨
  (∃ r, (vote_step (Received request question_id) db).1 = Responded r).
Proof.
  unfold vote_step, get_object_or_404.
  destruct (questions db !! question_id); simpl; eauto.
Qed.

Lemma vote_step_resolved {K : PkField} request p db :
  (∃ c, (vote_step (Resolved request p) db).1 = Selected p c) ∨
  (∃ r, (vote_step (Resolved request p) db).1 = Responded r).
Proof.
  unfold vote_step, POST_getitem, choice_set_get, raise, mbind, bind.
  destruct (POST request !! "choice") as [value|]; simpl; [| eauto].
  destruct (to_python value) as [k|]; simpl; [| eauto].
  destruct (choice_set db p.1 !! k); simpl; eauto.
Qed.

(** The three steps of a request, taken in a row from a pool in which no
    request holds a choice, keep the schedule exclusive and leave no request
    holding a choice. *)
Lemma exclusive_three_steps {K : PkField} i pool db request question_id :
  pool !! i = Some (Received request question_id) →
  holding pool = 0%nat →
  exclusive (replicate 3 i) pool db = true ∧
  holding (run (replicate 3 i) pool db).1 = 0%nat.
Proof.
  intros Hs Hnone. cbn [replicate exclusive run].
  destruct (step_at_thread i pool db _ Hs) as (Hs1 & _ & Hh1).
  destruct (step_at i pool db) as [pool1 db1]. cbn [fst snd] in *.
  assert (Hnone1 : holding pool1 = 0%nat).
  { destruct (vote_step_received request question_id db) as [[p Hp] | [r Hr]].
    - rewrite Hp in Hh1. simpl in Hh1. lia.
    - rewrite Hr in Hh1. simpl in Hh1. lia. }
  destruct (step_at_thread i pool1 db1 _ Hs1) as (Hs2 & _ & Hh2).
  destruct (step_at i pool1 db1) as [pool2 db2]. cbn [fst snd] in *.
  destruct (step_at_thread i pool2 db2 _ Hs2) as (Hs3 & _ & Hh3).
  destruct (step_at i pool2 db2) as [pool3 db3]. cbn [fst snd] in *.
  destruct (vote_step_received request question_id db) as [[p Hp] | [r Hr]].
  - rewrite Hp in Hh2, Hh3.
    destruct (vote_step_resolved request p db1) as [[c Hc] | [r Hr]].
    + rewrite Hc in Hh2, Hh3. simpl in Hh2, Hh3.
      rewrite !bool_decide_eq_true_2 by lia. split; [done | lia].
    + rewrite Hr in Hh2, Hh3. simpl in Hh2, Hh3.
      rewrite !bool_decide_eq_true_2 by lia. split; [done | lia].
  - rewrite Hr in Hh2, Hh3. simpl in Hh2, Hh3.
    rewrite !bool_decide_eq_true_2 by lia. split; [done | lia].
Qed.

Lemma exclusive_one_by_one {K : PkField} n : ∀ first pool db,
  holding pool = 0%nat →
  (∀ j, (first ≤ j < first + n)%nat →
        ∃ request question_id, pool !! j = Some (Received request question_id)) →
  exclusive (one_by_one first n) pool db = true.
Proof.
  induction n as [| n IH]; intros first pool db Hnone Hpool; [done |].
  unfold one_by_one. cbn [seq flat_map]. rewrite exclusive_app.
  destruct (Hpool first) as (request & question_id & Hs); [lia |].
  destruct (exclusive_three_steps first pool db request question_id Hs Hnone)
    as [Hexcl Hnone'].
  rewrite Hexcl. cbn [andb]. apply IH; [done |].
  intros j Hj. destruct (Hpool j) as (request' & question_id' & Hs'); [lia |].
  exists request', question_id'.
  rewrite (run_replicate 3 first pool _ db Hs). cbn [fst].
  rewrite list_lookup_insert_ne by lia. done.
Qed.

(** C8, as amended: when valid votes for a choice hold it in turn, that is
    on every schedule on which no request fetches or saves the choice
    between the fetch and the save of another, the counter stands at its
    value before the votes plus the number of votes answered, each by the
    redirect: exactly one increment per answered vote.  Serving the votes
    one after the other is such a schedule, and gives what dispatching the
    requests in sequence gives. *)
Theorem votes_in_turn_all_counted {K : PkField} (now : Z) (db : DB) (k v : Z)
    (rqs : list (HttpRequest * Z)) :
  votes_of db k = Some v →
  Forall (valid_vote db k) rqs →
  (∀ schedule,
     exclusive schedule (received <$> rqs) db = true →
     votes_of (run schedule (received <$> rqs) db).2 k
     = Some (v + Z.of_nat (answered (run schedule (received <$> rqs) db).1)) ∧
     (∀ r, Responded r ∈ (run schedule (received <$> rqs) db).1 →
           ∃ question_id, r = Ok (to_results question_id)) ∧
     ((run schedule (received <$> rqs) db).1 = redirected <$> rqs →
      votes_of (run schedule (received <$> rqs) db).2 k
      = Some (v + Z.of_nat (length rqs)))) ∧
  exclusive (one_by_one 0 (length rqs)) (received <$> rqs) db = true ∧
  ∃ db',
    run (one_by_one 0 (length rqs)) (received <$> rqs) db
    = (redirected <$> rqs, db') ∧
    db' = serve ((λ rq, (now, PostVote rq.1 rq.2)) <$> rqs) db ∧
    votes_of db' k = Some (v + Z.of_nat (length rqs)).
Proof.
  intros Hv Hvalid. split; [| split].
  - intros schedule Hexcl.
    destruct (votes_in_turn_received db k v rqs Hv Hvalid) as [q0 Hinit].
    pose proof (run_votes_in_turn k q0 v schedule _ _ Hinit Hexcl)
      as [(c & Hc & _ & Hvotes) [Hpool _]].
    assert (Hcount : votes_of (run schedule (received <$> rqs) db).2 k
                     = Some (v + Z.of_nat (answered
                                (run schedule (received <$> rqs) db).1))).
    { unfold votes_of. rewrite Hc. simpl. by rewrite Hvotes. }
    split; [exact Hcount |]. split.
    + intros r Hr. rewrite Forall_forall in Hpool. exact (Hpool _ Hr).
    + intros Hall. rewrite Hcount, Hall. by rewrite answered_redirected.
  - apply exclusive_one_by_one; [apply holding_received |].
    intros j [_ Hj]. simpl in Hj.
    destruct (lookup_lt_is_Some_2 rqs j Hj) as [[request question_id] Hrq].
    exists request, question_id. rewrite list_lookup_fmap, Hrq. done.
  - exact (run_one_by_one now k rqs [] db v Hv Hvalid).
Qed.

Lemma votes_in_turn_all_counted_witness :
  exclusive [0; 1; 1; 1; 0; 0]%nat
    (received <$> [(vote_for "7", 1); (vote_for "7", 1)]) one_question = true ∧
  votes_of (run [0; 1; 1; 1; 0; 0]%nat
              (received <$> [(vote_for "7", 1); (vote_for "7", 1)]) one_question).2 7
  = Some 2.
Proof.
  assert (Hvalid : valid_vote one_question 7 (vote_for "7", 1)).
  { split; [exists (mkQuestion "What's my choice?" 50); reflexivity |].
    split; [exists "7"; split; reflexivity |].
    exists (new_choice 1 "Me."). split; reflexivity. }
  destruct (votes_in_turn_all_counted 100 one_question 7 0
              [(vote_for "7", 1); (vote_for "7", 1)]) as [Hturn _].
  - reflexivity.
  - apply Forall_cons_2; [exact Hvalid |].
    apply Forall_cons_2; [exact Hvalid | apply Forall_nil_2].
  - assert (Hexcl : exclusive [0; 1; 1; 1; 0; 0]%nat
                      (received <$> [(vote_for "7", 1); (vote_for "7", 1)])
                      one_question = true) by (vm_compute; reflexivity).
    split; [exact Hexcl |].
    destruct (Hturn _ Hexcl) as (_ & _ & Hall).
    apply Hall. vm_compute. reflexivity.
Defined.

(** C8, as stated, fails when two valid votes for the same choice interleave:
    both read the counter at 0 before either writes, both write 1 and both
    are answered by the redirect; one increment is lost. *)
Lemma interleaved_votes_lose_an_increment :
  valid_vote one_question 7 (vote_for "7", 1) ∧
  votes_of one_question 7 = Some 0 ∧
  (run [0; 1; 0; 1; 0; 1]%nat
       [Received (vote_for "7") 1; Received (vote_for "7") 1] one_question).1
  = [Responded (Ok (to_results 1)); Responded (Ok (to_results 1))] ∧
  votes_of (run [0; 1; 0; 1; 0; 1]%nat
              [Received (vote_for "7") 1; Received (vote_for "7") 1] one_question).2 7
  = Some 1 ∧
  votes_of (run [0; 1; 0; 1; 0; 1]%nat
              [Received (vote_for "7") 1; Received (vote_for "7") 1] one_question).2 7
  ≠ Some (0 + 2).
Proof.
  split.
  { split; [exists (mkQuestion "What's my choice?" 50); reflexivity |].
    split; [exists "7"; split; reflexivity |].
    exists (new_choice 1 "Me."). split; reflexivity. }
  split; [done |]. split; [by vm_compute |].
  split; [by vm_compute |].
  intros Heq. vm_compute in Heq. discriminate Heq.
Qed.

(** ** Vote counters, one request after the other and at the same time *)





